(** * The Manager controller's reconciliation pass

    A shallow embedding of [pkg/controller/manager/manager_controller.go]:
    [GetManager] and [ReconcileManager.Reconcile].  One pass is a sequence of
    blocking calls against the cluster with an early return after each failed
    check.  The embedding keeps that shape: a pass is a computation that logs
    every call it makes (a trace of [Event]s) and either continues with a
    value or returns early with the pair [reconcile.Result, error].

    After the pass come the set-up of the controller ([Add], [newReconciler]
    and [add], of the same file) and the deep copies of the Core API types
    ([pkg/apis/operator/v1alpha1/zz_generated.deepcopy.go]). *)

From Stdlib Require Import String List ZArith Bool Lia.
Import ListNotations.

Local Open Scope string_scope.
Local Open Scope list_scope.

(** String concatenation, as produced by [fmt.Sprintf] with [%s] verbs. *)
Infix "+++" := String.append (right associativity, at level 60).

(** ** Go values the controller handles *)

(** A Go [error] as this controller observes it: the verdict of
    [errors.IsNotFound] and the text of [Error()]. *)
Record error : Type := mkError { IsNotFound : bool; Error : string }.

(** [fmt.Errorf] without a wrapping verb: never a not-found status error. *)
Definition fmt_Errorf (msg : string) : error := mkError false msg.

(** A Go result pair [(value, err)] in which the value is read only when
    [err == nil]. *)
Definition result (A : Type) : Type := (A + error)%type.
Definition ok {A : Type} (a : A) : result A := inl a.
Definition failed {A : Type} (e : error) : result A := inr e.

(** [time.Duration]: a count of nanoseconds. *)
Definition Duration : Type := Z.
Definition time_Nanosecond : Duration := 1%Z.
Definition time_Microsecond : Duration := (1000 * time_Nanosecond)%Z.
Definition time_Millisecond : Duration := (1000 * time_Microsecond)%Z.
Definition time_Second : Duration := (1000 * time_Millisecond)%Z.
Definition time_Minute : Duration := (60 * time_Second)%Z.
Definition time_Hour : Duration := (60 * time_Minute)%Z.

(** [reconcile.Result]. *)
Record Result : Type := mkResult { Requeue : bool; RequeueAfter : Duration }.

(** [reconcile.Result{}]. *)
Definition Result_zero : Result := mkResult false 0%Z.

(** What [Reconcile] hands back to the work queue. *)
Record Outcome : Type := mkOutcome { res : Result; err : option error }.

(** ** Resources *)

(** [operatorv1.Auth], [ManagerSpec], [ManagerStatus], [Manager]: the fields
    the controller reads or writes. *)
Record Auth : Type := mkAuth { Type_ : string }.
Record ManagerSpec : Type := mkManagerSpec { Auth_ : option Auth }.
Record ManagerStatus : Type := mkManagerStatus { State : string }.
Record Manager : Type := mkManager { Spec : ManagerSpec; Status : ManagerStatus }.

(** Provenance of a certificate bundle (spec, data model). *)
Inductive Provenance : Type := OperatorManaged | UserProvided | ExternallyIssued.

(** What a certificate field of a secret stands for: its SAN list, its
    validity window counted from issuance, and who issued it. *)
Record Certificate : Type := mkCertificate
  { SANs : list string; Validity : Duration; provenance : Provenance }.

(** One value of [Secret.Data]. *)
Inductive Blob : Type :=
| KeyMaterial
| CertMaterial (c : Certificate)
| Raw (bytes : string).

(** [corev1.Secret]. *)
Record Secret : Type := mkSecret
  { Name : string; Namespace : string; Data : list (string * Blob) }.

(** [secret.Data[key]]: a missing key reads as the nil slice. *)
Fixpoint Data_get (d : list (string * Blob)) (key : string) : option Blob :=
  match d with
  | [] => None
  | (k, v) :: d' => if String.eqb k key then Some v else Data_get d' key
  end.

(** [secret.Data[key] = v]: the newer entry shadows an older one. *)
Definition Data_set (d : list (string * Blob)) (key : string) (v : Blob)
  : list (string * Blob) :=
  (key, v) :: d.

(** Status sub-resources of the compliance and authentication resources. *)
Record Compliance : Type := mkCompliance { Compliance_State : string }.
Record Authentication : Type := mkAuthentication { Authentication_State : string }.

(** [operatorv1.InstallationSpec]: the two fields the pass inspects. *)
Record CertificateManagement : Type := mkCertificateManagement { CACert : string }.
Record Installation : Type := mkInstallation
  { CertificateManagement_ : option CertificateManagement;
    ControlPlaneReplicas : option Z }.

(** Package-level constants of [render], [common], [operatorv1] and [corev1]
    that the pass names; their declarations are outside this package. *)
Record Constants : Type := mkConstants
  { OperatorNamespace : string;
    TigeraPrometheusNamespace : string;
    ComplianceFeature : string;
    AuthTypeToken : string;
    TigeraStatusReady : string;
    ProviderOpenShift : string;
    TLSCertKey : string;
    ManagerNamespace : string;
    ManagerServiceName : string;
    ManagerTLSSecretName : string;
    ManagerSecretKeyName : string;
    ManagerSecretCertName : string;
    ManagerInternalTLSSecretName : string;
    ManagerInternalSecretCertName : string;
    ComplianceServerCertSecret : string;
    PacketCaptureCertSecret : string;
    PrometheusTLSSecretName : string;
    KibanaPublicCertSecret : string;
    ElasticsearchManagerUserSecret : string;
    VoltronTunnelSecretName : string }.

(** The reconciler's own fields that the pass reads ([client], [scheme] and
    [status] are the cluster and the trace below; [licenseAPIReady] is the
    one-shot flag, read through [IsReady]). *)
Record ReconcileManager : Type := mkReconcileManager
  { provider : string; clusterDomain : string; licenseAPIReady : bool }.

Section Controller.

(** Types owned by other packages whose values the pass only carries from one
    call to the next. *)
Context {LicenseKey ProductVariant ManagementCluster ManagementClusterConnection
         KeyValidatorConfig ClusterConfig ElasticsearchLicenseType Rendered : Type}.

(** The zero value of [render.ElasticsearchLicenseType]. *)
Variable ElasticsearchLicenseType_zero : ElasticsearchLicenseType.

Variable K : Constants.

(** Pure helpers of other packages: [dns.GetServiceDNSNames],
    [utils.IsCertOperatorIssued], [utils.IsFeatureActive], and the quoting
    done by [fmt]'s [%q] verb. *)
Variable GetServiceDNSNames : string -> string -> string -> list string.
Variable IsCertOperatorIssued : option Blob -> result bool.
Variable IsFeatureActive : LicenseKey -> string -> bool.
Variable strconv_Quote : string -> string.

(** [render.ManagerConfiguration], as filled in by the pass. *)
Record ManagerConfiguration : Type := mkManagerConfiguration
  { KeyValidatorConfig_ : KeyValidatorConfig;
    ESSecrets : list Secret;
    KibanaSecrets : list Secret;
    ComplianceServerCertSecret_ : option Secret;
    PacketCaptureServerCertSecret : option Secret;
    PrometheusCertSecret : option Secret;
    ESClusterConfig : ClusterConfig;
    TLSKeyPair : option Secret;
    PullSecrets : list Secret;
    Openshift : bool;
    Installation_ : Installation;
    ManagementCluster_ : option ManagementCluster;
    TunnelSecret : option Secret;
    InternalTrafficSecret : option Secret;
    ClusterDomain : string;
    ESLicenseType : ElasticsearchLicenseType;
    Replicas : option Z }.

(** [render.Component]: the passthrough of given objects, or the set rendered
    by [render.Manager]. *)
Inductive Component : Type :=
| NewPassthrough (objs : list Secret)
| RenderedSet (c : Rendered).

(** ** The cluster as one pass sees it

    Each field is the answer the corresponding call gives during the pass. *)
Record World : Type := mkWorld
  { client_Get_Manager : result Manager;
    IsAPIServerReady : bool;
    FetchLicenseKey : result LicenseKey;
    GetInstallation : result (ProductVariant * Installation);
    (* namespace, secret name, key name, cert name *)
    ValidateCertPair : string -> string -> string -> string -> result (option Secret);
    (* whether generating a fresh key pair and certificate fails *)
    CreateOperatorTLSSecret_err : option error;
    GetCompliance : result Compliance;
    client_Get_Namespace : string -> option error;
    GetNetworkingPullSecrets : Installation -> result (list Secret);
    GetElasticsearchClusterConfig : result ClusterConfig;
    ElasticsearchSecrets : list string -> result (list Secret);
    (* name, namespace *)
    client_Get_Secret : string -> string -> result Secret;
    GetManagementCluster : result (option ManagementCluster);
    GetManagementClusterConnection : result (option ManagementClusterConnection);
    (* both components of the pair are read *)
    GetAuthentication : option Authentication * option error;
    GetKeyValidatorConfig : option Authentication -> string -> result KeyValidatorConfig;
    GetElasticLicenseType : result ElasticsearchLicenseType;
    render_Manager : ManagerConfiguration -> result Rendered;
    (* the component after its images were resolved in place *)
    ApplyImageSet : ProductVariant -> Rendered -> result Rendered;
    CreateOrUpdateOrDelete : Component -> option error;
    IsAvailable : bool;
    Status_Update : Manager -> option error }.

(** ** The trace of a pass *)

(** What a read goes after. *)
Inductive Dep : Type :=
| DManager
| DAPIServer
| DLicenseAPIReady
| DLicenseKey
| DInstallation
| DCertPair (namespace name : string)
| DCompliance
| DNamespace (name : string)
| DPullSecrets
| DElasticsearchClusterConfig
| DElasticsearchSecrets
| DSecret (name namespace : string)
| DManagementCluster
| DManagementClusterConnection
| DAuthentication
| DKeyValidatorConfig
| DElasticLicenseType
| DImageSet
| DAvailable.

(** Every call a pass makes, in the order made. *)
Inductive Event : Type :=
| Fetch (what : Dep)
| OnCRNotFound
| OnCRFound
| SetDegraded (reason msg : string)
| ClearDegraded
| EnsureCertificate (secretName : string) (existing : option Secret)
                    (certDuration : Duration) (svcDNSNames : list string)
| Render (cfg : ManagerConfiguration)
| Apply (c : Component)
| StatusUpdate (instance : Manager).

(** A computation inside a pass: the calls it made, and either the value it
    continues with or what the pass returned early. *)
Definition M (A : Type) : Type := (list Event * (A + Outcome))%type.

Definition ret {A : Type} (a : A) : M A := ([], inl a).

(** [return res, err]. *)
Definition Return {A : Type} (r : Result) (e : option error) : M A :=
  ([], inr (mkOutcome r e)).

Definition bind {A B : Type} (m : M A) (k : A -> M B) : M B :=
  match m with
  | (t, inl a) => let (t', x) := k a in (t ++ t', x)
  | (t, inr o) => (t, inr o)
  end.

(** Make one call. *)
Definition call (e : Event) : M unit := ([e], inl tt).

Notation "x <- m ;; k" := (bind m (fun x => k))
  (at level 61, m at next level, right associativity).
Notation "' pat <- m ;; k" := (bind m (fun x => match x with pat => k end))
  (at level 61, pat pattern, m at next level, right associativity).
Notation "m ;; k" := (bind m (fun _ => k))
  (at level 61, right associativity).

(** A finished pass: the calls made and what was returned. *)
Record Run : Type := mkRun { trace : list Event; outcome : Outcome }.

Definition run (m : M Outcome) : Run :=
  mkRun (fst m) (match snd m with inl o => o | inr o => o end).

(** ** [GetManager] *)

Definition GetManager_authError : error :=
  fmt_Errorf ("auth types other than 'Token' can no longer be configured using the Manager CR, "
              +++ "please use the Authentication CR instead").

Definition GetManager (w : World) : result Manager :=
  match client_Get_Manager w with
  | inr err => failed err
  | inl instance =>
      match Auth_ (Spec instance) with
      | Some a =>
          if negb (String.eqb (Type_ a) (AuthTypeToken K))
          then failed GetManager_authError
          else ok instance
      | None => ok instance
      end
  end.

(** ** [utils.EnsureCertificateSecret] *)

(** The secret the operator generates. *)
Definition synthesized (secretName keyName certName : string)
    (certDuration : Duration) (svcDNSNames : list string) : Secret :=
  mkSecret secretName (OperatorNamespace K)
    (Data_set (Data_set [] keyName KeyMaterial)
       certName (CertMaterial (mkCertificate svcDNSNames certDuration OperatorManaged))).

Definition operatorManaged (s : Secret) (certName : string) : bool :=
  match Data_get (Data s) certName with
  | Some (CertMaterial c) =>
      match provenance c with OperatorManaged => true | _ => false end
  | _ => false
  end.

Definition staleSANs (s : Secret) (certName : string) (svcDNSNames : list string) : bool :=
  match Data_get (Data s) certName with
  | Some (CertMaterial c) =>
      if list_eq_dec string_dec (SANs c) svcDNSNames then false else true
  | _ => false
  end.

(** Modelled from the spec: [utils.EnsureCertificateSecret] is not among the
    sources.  Spec 4.2: with no valid secret, one is synthesized, self-signed,
    with the given SAN list and validity window; a valid secret is kept unless
    its SAN list is stale relative to current service naming, in which case it
    is regenerated.  The comment at its call site adds that the DNS names are
    ensured if the secret is operator managed.  The call site handles an error
    from it, so generation may fail. *)
Definition EnsureCertificateSecret (w : World) (secretName : string)
    (secret : option Secret) (keyName certName : string)
    (certDuration : Duration) (svcDNSNames : list string)
  : result (option Secret * bool) :=
  let generate :=
    match CreateOperatorTLSSecret_err w with
    | Some e => failed e
    | None => ok (Some (synthesized secretName keyName certName certDuration svcDNSNames), true)
    end in
  match secret with
  | None => generate
  | Some s =>
      if operatorManaged s certName then
        if staleSANs s certName svcDNSNames then generate else ok (Some s, true)
      else ok (Some s, false)
  end.

(** ** [ReconcileManager.Reconcile] *)

(** The loop over [components]: each is handed to
    [handler.CreateOrUpdateOrDelete]; the first error ends the pass. *)
Fixpoint applyComponents (w : World) (components : list Component) : M unit :=
  match components with
  | [] => ret tt
  | component :: rest =>
      call (Apply component) ;;
      match CreateOrUpdateOrDelete w component with
      | Some err =>
          call (SetDegraded "Error creating / updating resource" (Error err)) ;;
          Return Result_zero (Some err)
      | None => applyComponents w rest
      end
  end.

Definition conflictError : error :=
  fmt_Errorf "having both a ManagementCluster and a ManagementClusterConnection is not supported".

Definition userProvidedError : error :=
  fmt_Errorf ("user provided secret " +++ ManagerNamespace K +++ "/" +++ ManagerTLSSecretName K
              +++ " is not supported when certificate management is enabled").

Definition Reconcile (r : ReconcileManager) (w : World) : M Outcome :=
  (* Fetch the Manager instance *)
  call (Fetch DManager) ;;
  instance <-
    match GetManager w with
    | inr err =>
        if IsNotFound err then
          call OnCRNotFound ;;
          Return Result_zero None
        else
          call (SetDegraded "Error querying Manager" (Error err)) ;;
          Return Result_zero (Some err)
    | inl instance => ret instance
    end ;;
  call OnCRFound ;;

  call (Fetch DAPIServer) ;;
  (if negb (IsAPIServerReady w) then
     call (SetDegraded "Waiting for Tigera API server to be ready" "") ;;
     Return Result_zero None
   else ret tt) ;;

  call (Fetch DLicenseAPIReady) ;;
  (if negb (licenseAPIReady r) then
     call (SetDegraded "Waiting for LicenseKeyAPI to be ready" "") ;;
     Return (mkResult false (10 * time_Second)%Z) None
   else ret tt) ;;

  call (Fetch DLicenseKey) ;;
  license <-
    match FetchLicenseKey w with
    | inr err =>
        if IsNotFound err then
          call (SetDegraded "License not found" (Error err)) ;;
          Return (mkResult false (10 * time_Second)%Z) None
        else
          call (SetDegraded "Error querying license" (Error err)) ;;
          Return (mkResult false (10 * time_Second)%Z) None
    | inl license => ret license
    end ;;

  (* Fetch the Installation instance. *)
  call (Fetch DInstallation) ;;
  ' (variant, installation) <-
    match GetInstallation w with
    | inr err =>
        if IsNotFound err then
          call (SetDegraded "Installation not found" (Error err)) ;;
          Return Result_zero (Some err)
        else
          call (SetDegraded "Error querying installation" (Error err)) ;;
          Return Result_zero (Some err)
    | inl vi => ret vi
    end ;;

  (* Check that if the manager certpair secret exists that it is valid *)
  call (Fetch (DCertPair (OperatorNamespace K) (ManagerTLSSecretName K))) ;;
  tlsSecret <-
    match ValidateCertPair w (OperatorNamespace K) (ManagerTLSSecretName K)
            (ManagerSecretKeyName K) (ManagerSecretCertName K) with
    | inr err =>
        call (SetDegraded "Error validating manager TLS certificate" (Error err)) ;;
        Return Result_zero (Some err)
    | inl tlsSecret => ret tlsSecret
    end ;;

  (* If the manager TLS secret exists, check whether it is managed by the operator. *)
  ' (tlsSecret, operatorManagedCertSecret) <-
    match CertificateManagement_ installation with
    | None =>
        let svcDNSNames :=
          GetServiceDNSNames (ManagerServiceName K) (ManagerNamespace K) (clusterDomain r) in
        let svcDNSNames := svcDNSNames ++ ["localhost"] in
        let certDur := (825 * 24 * time_Hour)%Z in
        call (EnsureCertificate (ManagerTLSSecretName K) tlsSecret certDur svcDNSNames) ;;
        match EnsureCertificateSecret w (ManagerTLSSecretName K) tlsSecret
                (ManagerSecretKeyName K) (ManagerSecretCertName K) certDur svcDNSNames with
        | inr err =>
            call (SetDegraded
                    ("Error ensuring manager TLS certificate "
                     +++ strconv_Quote (ManagerTLSSecretName K)
                     +++ " exists and has valid DNS names") (Error err)) ;;
            Return Result_zero (Some err)
        | inl secretAndManaged => ret secretAndManaged
        end
    | Some _ =>
        match tlsSecret with
        | Some s =>
            match IsCertOperatorIssued (Data_get (Data s) (ManagerInternalSecretCertName K)) with
            | inr err =>
                call (SetDegraded "Error checking if manager TLS certificate is operator managed"
                        (Error err)) ;;
                Return Result_zero (Some err)
            | inl operatorManagedCertSecret =>
                if negb operatorManagedCertSecret then
                  let err := userProvidedError in
                  call (SetDegraded "Invalid certificate configuration" (Error err)) ;;
                  Return Result_zero (Some err)
                else ret (tlsSecret, operatorManagedCertSecret)
            end
        | None => ret (tlsSecret, false)
        end
    end ;;

  let installCompliance := IsFeatureActive license (ComplianceFeature K) in
  complianceServerCertSecret <-
    (if installCompliance then
       (* Check that compliance is running. *)
       call (Fetch DCompliance) ;;
       compliance <-
         match GetCompliance w with
         | inr err =>
             if IsNotFound err then
               call (SetDegraded "Compliance not found" (Error err)) ;;
               Return Result_zero (Some err)
             else
               call (SetDegraded "Error querying compliance" (Error err)) ;;
               Return Result_zero (Some err)
         | inl compliance => ret compliance
         end ;;
       (if negb (String.eqb (Compliance_State compliance) (TigeraStatusReady K)) then
          call (SetDegraded "Compliance is not ready"
                  ("compliance status: " +++ Compliance_State compliance)) ;;
          Return Result_zero None
        else ret tt) ;;
       call (Fetch (DCertPair (OperatorNamespace K) (ComplianceServerCertSecret K))) ;;
       match ValidateCertPair w (OperatorNamespace K) (ComplianceServerCertSecret K)
               "" (TLSCertKey K) with
       | inr err =>
           call (SetDegraded ("Failed to retrieve " +++ ComplianceServerCertSecret K) (Error err)) ;;
           Return Result_zero (Some err)
       | inl None =>
           call (SetDegraded ("Waiting for secret '" +++ ComplianceServerCertSecret K
                              +++ "' to become available") "") ;;
           Return Result_zero None
       | inl (Some s) => ret (Some s)
       end
     else ret None) ;;

  (* check that prometheus is running *)
  call (Fetch (DNamespace (TigeraPrometheusNamespace K))) ;;
  match client_Get_Namespace w (TigeraPrometheusNamespace K) with
  | Some err =>
      (if IsNotFound err then
         call (SetDegraded "tigera-prometheus namespace does not exist"
                 "Dependency on tigera-prometheus not satisfied")
       else
         call (SetDegraded "Error querying prometheus" (Error err))) ;;
      Return Result_zero (Some err)
  | None => ret tt
  end ;;

  call (Fetch DPullSecrets) ;;
  pullSecrets <-
    match GetNetworkingPullSecrets w installation with
    | inr err =>
        call (SetDegraded "Error retrieving pull secrets" (Error err)) ;;
        Return Result_zero (Some err)
    | inl pullSecrets => ret pullSecrets
    end ;;

  call (Fetch DElasticsearchClusterConfig) ;;
  esClusterConfig <-
    match GetElasticsearchClusterConfig w with
    | inr err =>
        if IsNotFound err then
          call (SetDegraded
                  "Elasticsearch cluster configuration is not available, waiting for it to become available"
                  (Error err)) ;;
          Return Result_zero None
        else
          call (SetDegraded "Failed to get the elasticsearch cluster configuration" (Error err)) ;;
          Return Result_zero (Some err)
    | inl esClusterConfig => ret esClusterConfig
    end ;;

  call (Fetch DElasticsearchSecrets) ;;
  esSecrets <-
    match ElasticsearchSecrets w [ElasticsearchManagerUserSecret K] with
    | inr err =>
        if IsNotFound err then
          call (SetDegraded
                  "Elasticsearch secrets are not available yet, waiting until they become available"
                  (Error err)) ;;
          Return Result_zero None
        else
          call (SetDegraded "Failed to get Elasticsearch credentials" (Error err)) ;;
          Return Result_zero (Some err)
    | inl esSecrets => ret esSecrets
    end ;;

  call (Fetch (DSecret (KibanaPublicCertSecret K) (OperatorNamespace K))) ;;
  kibanaPublicCertSecret <-
    match client_Get_Secret w (KibanaPublicCertSecret K) (OperatorNamespace K) with
    | inr err =>
        call (SetDegraded "Failed to read Kibana public cert secret" (Error err)) ;;
        Return Result_zero (Some err)
    | inl secret => ret secret
    end ;;

  call (Fetch DManagementCluster) ;;
  managementCluster <-
    match GetManagementCluster w with
    | inr err =>
        call (SetDegraded "Error reading ManagementCluster" (Error err)) ;;
        Return Result_zero (Some err)
    | inl managementCluster => ret managementCluster
    end ;;

  call (Fetch DManagementClusterConnection) ;;
  managementClusterConnection <-
    match GetManagementClusterConnection w with
    | inr err =>
        call (SetDegraded "Error reading ManagementClusterConnection" (Error err)) ;;
        Return Result_zero (Some err)
    | inl managementClusterConnection => ret managementClusterConnection
    end ;;

  match managementClusterConnection, managementCluster with
  | Some _, Some _ =>
      let err := conflictError in
      call (SetDegraded (Error err) "") ;;
      Return Result_zero (Some err)
  | _, _ => ret tt
  end ;;

  ' (tunnelSecret, internalTrafficSecret) <-
    match managementCluster with
    | Some _ =>
        (* the secret that holds the certificates for tunnel certificate generation *)
        call (Fetch (DSecret (VoltronTunnelSecretName K) (OperatorNamespace K))) ;;
        tunnelSecret <-
          match client_Get_Secret w (VoltronTunnelSecretName K) (OperatorNamespace K) with
          | inr err =>
              call (SetDegraded
                      "Failed to check for the existence of management-cluster-connection secret"
                      (Error err)) ;;
              Return Result_zero None
          | inl secret => ret secret
          end ;;
        (* the secret for internal communication within the management cluster *)
        call (Fetch (DSecret (ManagerInternalTLSSecretName K) (OperatorNamespace K))) ;;
        internalTrafficSecret <-
          match client_Get_Secret w (ManagerInternalTLSSecretName K) (OperatorNamespace K) with
          | inr err =>
              if IsNotFound err then
                call (SetDegraded
                        ("Waiting for secret " +++ ManagerInternalTLSSecretName K
                         +++ " in namespace " +++ OperatorNamespace K +++ " to be available") "") ;;
                Return Result_zero None
              else
                call (SetDegraded
                        ("Error fetching TLS secret " +++ ManagerInternalTLSSecretName K
                         +++ " in namespace " +++ OperatorNamespace K) (Error err)) ;;
                Return Result_zero (Some err)
          | inl secret => ret secret
          end ;;
        ret (Some tunnelSecret, Some internalTrafficSecret)
    | None => ret (None, None)
    end ;;

  (* Fetch the Authentication spec. If present, we use to configure user authentication. *)
  call (Fetch DAuthentication) ;;
  ' (authenticationCR, err) <- ret (GetAuthentication w) ;;
  match err with
  | Some err =>
      if negb (IsNotFound err) then
        call (SetDegraded "Error while fetching Authentication" (Error err)) ;;
        Return Result_zero (Some err)
      else ret tt
  | None => ret tt
  end ;;
  match authenticationCR with
  | Some cr =>
      if negb (String.eqb (Authentication_State cr) (TigeraStatusReady K)) then
        call (SetDegraded "Authentication is not ready"
                ("authenticationCR status: " +++ Authentication_State cr)) ;;
        Return Result_zero None
      else ret tt
  | None => ret tt
  end ;;

  call (Fetch DKeyValidatorConfig) ;;
  keyValidatorConfig <-
    match GetKeyValidatorConfig w authenticationCR (clusterDomain r) with
    | inr err =>
        call (SetDegraded "Failed to process the authentication CR." (Error err)) ;;
        Return Result_zero (Some err)
    | inl keyValidatorConfig => ret keyValidatorConfig
    end ;;

  elasticLicenseType <-
    match managementClusterConnection with
    | None =>
        call (Fetch DElasticLicenseType) ;;
        match GetElasticLicenseType w with
        | inr err =>
            call (SetDegraded "Failed to get Elasticsearch license" (Error err)) ;;
            Return Result_zero (Some err)
        | inl elasticLicenseType => ret elasticLicenseType
        end
    | Some _ => ret ElasticsearchLicenseType_zero
    end ;;

  call (Fetch (DCertPair (OperatorNamespace K) (PacketCaptureCertSecret K))) ;;
  packetCaptureServerCertSecret <-
    match ValidateCertPair w (OperatorNamespace K) (PacketCaptureCertSecret K)
            "" (TLSCertKey K) with
    | inr err =>
        call (SetDegraded ("Failed to retrieve " +++ PacketCaptureCertSecret K) (Error err)) ;;
        Return Result_zero (Some err)
    | inl None =>
        call (SetDegraded ("Waiting for secret '" +++ PacketCaptureCertSecret K
                           +++ "' to become available") "") ;;
        Return Result_zero None
    | inl (Some s) => ret (Some s)
    end ;;

  call (Fetch (DCertPair (OperatorNamespace K) (PrometheusTLSSecretName K))) ;;
  prometheusCertSecret <-
    match ValidateCertPair w (OperatorNamespace K) (PrometheusTLSSecretName K)
            "" (TLSCertKey K) with
    | inr err =>
        call (SetDegraded ("Failed to retrieve " +++ PrometheusTLSSecretName K) (Error err)) ;;
        Return Result_zero (Some err)
    | inl prometheusCertSecret => ret prometheusCertSecret
    end ;;

  let components : list Component :=
    match tlsSecret with
    | Some s => if operatorManagedCertSecret then [NewPassthrough [s]] else []
    | None => []
    end in

  (* Set replicas to 1 for management or managed clusters. *)
  let replicas : option Z := ControlPlaneReplicas installation in
  let replicas : option Z :=
    match managementCluster, managementClusterConnection with
    | None, None => replicas
    | _, _ => let mcmReplicas := 1%Z in Some mcmReplicas
    end in

  let managerCfg :=
    {| KeyValidatorConfig_ := keyValidatorConfig;
       ESSecrets := esSecrets;
       KibanaSecrets := [kibanaPublicCertSecret];
       ComplianceServerCertSecret_ := complianceServerCertSecret;
       PacketCaptureServerCertSecret := packetCaptureServerCertSecret;
       PrometheusCertSecret := prometheusCertSecret;
       ESClusterConfig := esClusterConfig;
       TLSKeyPair := tlsSecret;
       PullSecrets := pullSecrets;
       Openshift := String.eqb (provider r) (ProviderOpenShift K);
       Installation_ := installation;
       ManagementCluster_ := managementCluster;
       TunnelSecret := tunnelSecret;
       InternalTrafficSecret := internalTrafficSecret;
       ClusterDomain := clusterDomain r;
       ESLicenseType := elasticLicenseType;
       Replicas := replicas |} in

  (* Render the desired objects from the CRD and create or update them. *)
  call (Render managerCfg) ;;
  component <-
    match render_Manager w managerCfg with
    | inr err =>
        call (SetDegraded "Error rendering Manager" (Error err)) ;;
        Return Result_zero (Some err)
    | inl component => ret component
    end ;;

  call (Fetch DImageSet) ;;
  component <-
    match ApplyImageSet w variant component with
    | inr err =>
        call (SetDegraded "Error with images from ImageSet" (Error err)) ;;
        Return Result_zero (Some err)
    | inl component => ret component
    end ;;

  let components := components ++ [RenderedSet component] in
  applyComponents w components ;;

  (* Clear the degraded bit if we've reached this far. *)
  call ClearDegraded ;;
  let instance := mkManager (Spec instance) (mkManagerStatus (TigeraStatusReady K)) in
  call (Fetch DAvailable) ;;
  (if IsAvailable w then
     call (StatusUpdate instance) ;;
     match Status_Update w instance with
     | Some err => Return Result_zero (Some err)
     | None => ret tt
     end
   else ret tt) ;;

  Return Result_zero None.

(** ** Reading a trace *)

(** The components handed to the apply handler, in order. *)
Fixpoint applied (t : list Event) : list Component :=
  match t with
  | [] => []
  | Apply c :: t' => c :: applied t'
  | _ :: t' => applied t'
  end.

(** The instances written to the status sub-resource, in order. *)
Fixpoint statusWrites (t : list Event) : list Manager :=
  match t with
  | [] => []
  | StatusUpdate i :: t' => i :: statusWrites t'
  | _ :: t' => statusWrites t'
  end.

(** The configurations handed to [render.Manager]. *)
Fixpoint rendered (t : list Event) : list ManagerConfiguration :=
  match t with
  | [] => []
  | Render cfg :: t' => cfg :: rendered t'
  | _ :: t' => rendered t'
  end.

(** The status manager's degraded condition after the calls of [t], starting
    from condition [d]: [SetDegraded] sets it, [ClearDegraded] clears it. *)
Fixpoint degradedAfter (d : option (string * string)) (t : list Event)
  : option (string * string) :=
  match t with
  | [] => d
  | SetDegraded reason msg :: t' => degradedAfter (Some (reason, msg)) t'
  | ClearDegraded :: t' => degradedAfter None t'
  | _ :: t' => degradedAfter d t'
  end.

(** The (reason, message) pairs of the [SetDegraded] calls, in order. *)
Fixpoint degradations (t : list Event) : list (string * string) :=
  match t with
  | [] => []
  | SetDegraded reason msg :: t' => (reason, msg) :: degradations t'
  | _ :: t' => degradations t'
  end.

(** The requests made to [EnsureCertificateSecret]: the secret passed in, the
    validity asked for, and the DNS names. *)
Fixpoint ensured (t : list Event) : list (option Secret * Duration * list string) :=
  match t with
  | [] => []
  | EnsureCertificate _ existing certDuration svcDNSNames :: t' =>
      (existing, certDuration, svcDNSNames) :: ensured t'
  | _ :: t' => ensured t'
  end.

(** Whether [ClearDegraded] was called. *)
Fixpoint cleared (t : list Event) : bool :=
  match t with
  | [] => false
  | ClearDegraded :: _ => true
  | _ :: t' => cleared t'
  end.

Definition Dep_eqb (a b : Dep) : bool :=
  match a, b with
  | DManager, DManager => true
  | DAPIServer, DAPIServer => true
  | DLicenseAPIReady, DLicenseAPIReady => true
  | DLicenseKey, DLicenseKey => true
  | DInstallation, DInstallation => true
  | DCertPair ns n, DCertPair ns' n' => String.eqb ns ns' && String.eqb n n'
  | DCompliance, DCompliance => true
  | DNamespace n, DNamespace n' => String.eqb n n'
  | DPullSecrets, DPullSecrets => true
  | DElasticsearchClusterConfig, DElasticsearchClusterConfig => true
  | DElasticsearchSecrets, DElasticsearchSecrets => true
  | DSecret n ns, DSecret n' ns' => String.eqb n n' && String.eqb ns ns'
  | DManagementCluster, DManagementCluster => true
  | DManagementClusterConnection, DManagementClusterConnection => true
  | DAuthentication, DAuthentication => true
  | DKeyValidatorConfig, DKeyValidatorConfig => true
  | DElasticLicenseType, DElasticLicenseType => true
  | DImageSet, DImageSet => true
  | DAvailable, DAvailable => true
  | _, _ => false
  end.

(** Whether [d] was read. *)
Fixpoint fetched (d : Dep) (t : list Event) : bool :=
  match t with
  | [] => false
  | Fetch d' :: t' => Dep_eqb d' d || fetched d t'
  | _ :: t' => fetched d t'
  end.

(** The pass gets as far as reading [d]. *)
Definition reaches (r : ReconcileManager) (w : World) (d : Dep) : Prop :=
  fetched d (trace (run (Reconcile r w))) = true.

(** One pass of the controller: its trace and what it returned. *)
Definition pass (r : ReconcileManager) (w : World) : Run := run (Reconcile r w).

(** What a stage that goes on leaves behind: nothing applied, written or
    rendered, and the degraded condition as it was. *)
Definition quiet (t : list Event) : Prop :=
  applied t = [] /\ statusWrites t = [] /\ rendered t = []
  /\ degradations t = [] /\ cleared t = false
  /\ forall d, degradedAfter d t = d.

(** The list the loop of [applyComponents] gets through: everything up to and
    including the first component whose apply fails. *)
Fixpoint throughFirstFailure (w : World) (components : list Component) : list Component :=
  match components with
  | [] => []
  | c :: rest =>
      match CreateOrUpdateOrDelete w c with
      | Some _ => [c]
      | None => c :: throughFirstFailure w rest
      end
  end.

(** The error of the first component whose apply fails. *)
Fixpoint firstFailure (w : World) (components : list Component) : option error :=
  match components with
  | [] => None
  | c :: rest =>
      match CreateOrUpdateOrDelete w c with
      | Some e => Some e
      | None => firstFailure w rest
      end
  end.

(** ** How traces and computations compose *)

Lemma applied_app (t1 t2 : list Event) :
  applied (t1 ++ t2) = applied t1 ++ applied t2.
Proof.
  induction t1 as [|e t1 IH]; [reflexivity|].
  destruct e; cbn [app applied]; rewrite ?IH; reflexivity.
Qed.

Lemma statusWrites_app (t1 t2 : list Event) :
  statusWrites (t1 ++ t2) = statusWrites t1 ++ statusWrites t2.
Proof.
  induction t1 as [|e t1 IH]; [reflexivity|].
  destruct e; cbn [app statusWrites]; rewrite ?IH; reflexivity.
Qed.

Lemma rendered_app (t1 t2 : list Event) :
  rendered (t1 ++ t2) = rendered t1 ++ rendered t2.
Proof.
  induction t1 as [|e t1 IH]; [reflexivity|].
  destruct e; cbn [app rendered]; rewrite ?IH; reflexivity.
Qed.

Lemma degradedAfter_app (d : option (string * string)) (t1 t2 : list Event) :
  degradedAfter d (t1 ++ t2) = degradedAfter (degradedAfter d t1) t2.
Proof.
  revert d. induction t1 as [|e t1 IH]; intros d; [reflexivity|].
  destruct e; cbn [app degradedAfter]; apply IH.
Qed.

Lemma degradations_app (t1 t2 : list Event) :
  degradations (t1 ++ t2) = degradations t1 ++ degradations t2.
Proof.
  induction t1 as [|e t1 IH]; [reflexivity|].
  destruct e; cbn [app degradations]; rewrite ?IH; reflexivity.
Qed.

Lemma ensured_app (t1 t2 : list Event) :
  ensured (t1 ++ t2) = ensured t1 ++ ensured t2.
Proof.
  induction t1 as [|e t1 IH]; [reflexivity|].
  destruct e; cbn [app ensured]; rewrite ?IH; reflexivity.
Qed.

Lemma cleared_app (t1 t2 : list Event) :
  cleared (t1 ++ t2) = cleared t1 || cleared t2.
Proof.
  induction t1 as [|e t1 IH]; [reflexivity|].
  destruct e; cbn [app cleared orb]; rewrite ?IH; reflexivity.
Qed.

Lemma fetched_app (d : Dep) (t1 t2 : list Event) :
  fetched d (t1 ++ t2) = fetched d t1 || fetched d t2.
Proof.
  induction t1 as [|e t1 IH]; [reflexivity|].
  destruct e; cbn [app fetched]; rewrite ?IH, ?orb_assoc; reflexivity.
Qed.

Lemma applied_map_Apply (cs : list Component) : applied (map Apply cs) = cs.
Proof. induction cs as [|c cs IH]; cbn; congruence. Qed.

Lemma statusWrites_map_Apply (cs : list Component) : statusWrites (map Apply cs) = [].
Proof. induction cs as [|c cs IH]; cbn; congruence. Qed.

Lemma rendered_map_Apply (cs : list Component) : rendered (map Apply cs) = [].
Proof. induction cs as [|c cs IH]; cbn; congruence. Qed.

Lemma degradedAfter_map_Apply (d : option (string * string)) (cs : list Component) :
  degradedAfter d (map Apply cs) = d.
Proof. induction cs as [|c cs IH]; cbn; congruence. Qed.

Lemma degradations_map_Apply (cs : list Component) : degradations (map Apply cs) = [].
Proof. induction cs as [|c cs IH]; cbn; congruence. Qed.

Lemma ensured_map_Apply (cs : list Component) : ensured (map Apply cs) = [].
Proof. induction cs as [|c cs IH]; cbn; congruence. Qed.

Lemma cleared_map_Apply (cs : list Component) : cleared (map Apply cs) = false.
Proof. induction cs as [|c cs IH]; cbn; congruence. Qed.

Lemma fetched_map_Apply (d : Dep) (cs : list Component) : fetched d (map Apply cs) = false.
Proof. induction cs as [|c cs IH]; cbn; congruence. Qed.

Lemma bind_inv {A B : Type} (m : M A) (k : A -> M B)
    (t : list Event) (x : B + Outcome) :
  bind m k = (t, x) ->
  (exists t1 o, m = (t1, inr o) /\ t = t1 /\ x = inr o) \/
  (exists t1 a t2, m = (t1, inl a) /\ k a = (t2, x) /\ t = t1 ++ t2).
Proof.
  unfold bind. destruct m as [t1 [a|o]].
  - destruct (k a) as [t2 y] eqn:Hk. intros [= <- <-]. right. eauto 7.
  - intros [= <- <-]. left. eauto.
Qed.

Lemma bind_call_inv {B : Type} (e : Event) (k : unit -> M B)
    (t : list Event) (x : B + Outcome) :
  bind (call e) k = (t, x) -> exists t2, k tt = (t2, x) /\ t = e :: t2.
Proof.
  unfold bind, call. destruct (k tt) as [t2 y]. intros [= <- <-]. eauto.
Qed.

Lemma finished_inv {A : Type} (t t' : list Event) (v x : A + Outcome) :
  (t, v) = (t', x) -> t = t' /\ v = x.
Proof. intros [= -> ->]. split; reflexivity. Qed.

Lemma continues_inv {A : Type} (t t' : list Event) (a a' : A) :
  (t, @inl A Outcome a) = (t', inl a') -> t = t' /\ a = a'.
Proof. intros [= -> ->]. split; reflexivity. Qed.

Lemma returns_inv {A : Type} (t t' : list Event) (o o' : Outcome) :
  (t, @inr A Outcome o) = (t', inr o') -> t = t' /\ o = o'.
Proof. intros [= -> ->]. split; reflexivity. Qed.

Lemma continues_returns {A : Type} (t t' : list Event) (a : A) (o : Outcome) :
  (t, @inl A Outcome a) = (t', inr o) -> False.
Proof. discriminate. Qed.

Lemma returns_continues {A : Type} (t t' : list Event) (a : A) (o : Outcome) :
  (t, @inr A Outcome o) = (t', inl a) -> False.
Proof. discriminate. Qed.

(** The loop applies the components up to and including the first failing
    one, and returns that one's error. *)
Lemma applyComponents_spec (w : World) (cs : list Component) :
  applyComponents w cs =
  match firstFailure w cs with
  | Some e =>
      (map Apply (throughFirstFailure w cs)
         ++ [SetDegraded "Error creating / updating resource" (Error e)],
       inr (mkOutcome Result_zero (Some e)))
  | None => (map Apply cs, inl tt)
  end.
Proof.
  induction cs as [|c cs IH]; [reflexivity|].
  cbn [applyComponents firstFailure throughFirstFailure bind call].
  destruct (CreateOrUpdateOrDelete w c) as [e|]; [reflexivity|].
  rewrite IH. destruct (firstFailure w cs); reflexivity.
Qed.

Lemma firstFailure_None_through (w : World) (cs : list Component) :
  firstFailure w cs = None -> throughFirstFailure w cs = cs.
Proof.
  induction cs as [|c cs IH]; [reflexivity|]. cbn.
  destruct (CreateOrUpdateOrDelete w c); [discriminate|].
  intros H. rewrite (IH H). reflexivity.
Qed.

Lemma firstFailure_None_Forall (w : World) (cs : list Component) :
  firstFailure w cs = None ->
  Forall (fun c => CreateOrUpdateOrDelete w c = None) cs.
Proof.
  induction cs as [|c cs IH]; [constructor|]. cbn.
  destruct (CreateOrUpdateOrDelete w c) eqn:Hc; [discriminate|].
  intros H. constructor; auto.
Qed.

(** What the two functions compute: the components before the first failing
    one all apply, the failing one is the last the loop gets to, and nothing
    after it is touched. *)
Lemma firstFailure_split (w : World) (cs : list Component) :
  match firstFailure w cs with
  | Some e =>
      exists before c after,
        cs = before ++ c :: after
        /\ Forall (fun c' => CreateOrUpdateOrDelete w c' = None) before
        /\ CreateOrUpdateOrDelete w c = Some e
        /\ throughFirstFailure w cs = before ++ [c]
  | None =>
      Forall (fun c => CreateOrUpdateOrDelete w c = None) cs
      /\ throughFirstFailure w cs = cs
  end.
Proof.
  induction cs as [|c cs IH]; cbn.
  - split; [constructor|reflexivity].
  - destruct (CreateOrUpdateOrDelete w c) as [e|] eqn:Hc.
    + exists [], c, cs. repeat split; auto.
    + destruct (firstFailure w cs) as [e|].
      * destruct IH as (before & c' & after & -> & Hall & Hc' & ->).
        exists (c :: before), c', after. repeat split; auto.
      * destruct IH as [Hall ->]. split; [constructor; auto|reflexivity].
Qed.

(** ** Proof steps

    A pass is walked stage by stage, in program order.  [H] holds what is
    left of the pass, [H : rest = (t, x)], and the goal speaks of the trace
    so far followed by [t].  A stage is the first computation of the bind at
    the head of [rest]; it is run on every answer the cluster can give.
    Where it returns, the goal is closed on the finished trace; where it
    continues in one way only, the walk goes on with that answer; where it
    can continue in several ways, the walk goes on with the stage's trace
    kept abstract, under the invariant [inv], or, where the invariant does
    not hold of the stage, once for each way.  After each stage the goal is
    normalised, so that it only speaks of what is left. *)

(** The value a stuck computation is waiting for: the scrutinee of its head
    [match], looked for through the matches and binds it sits under. *)
Ltac head_scrutinee t :=
  lazymatch t with
  | match ?x with _ => _ end => head_scrutinee x
  | negb ?b => head_scrutinee b
  | bind ?m _ => head_scrutinee m
  | _ => t
  end.

Ltac eval_stage H :=
  cbv beta delta [ret Return call] in H;
  cbn [bind fst snd app negb] in H.

Ltac norm_eval :=
  cbn [run fst snd trace outcome res err app applied statusWrites rendered
       degradations ensured cleared degradedAfter fetched Dep_eqb orb andb].

Ltac norm :=
  norm_eval; rewrite ?String.eqb_refl; cbn [orb andb];
  lazymatch goal with
  | |- context [map Apply _] =>
      rewrite ?applied_app, ?statusWrites_app, ?rendered_app, ?degradations_app,
        ?ensured_app, ?cleared_app, ?fetched_app, ?degradedAfter_app,
        ?applied_map_Apply, ?statusWrites_map_Apply, ?rendered_map_Apply,
        ?degradations_map_Apply, ?ensured_map_Apply, ?cleared_map_Apply,
        ?fetched_map_Apply, ?degradedAfter_map_Apply;
      norm_eval
  | |- _ => idtac
  end.

(** Read a finished stage [Hm : (t, v) = (t1, v1)]. *)
Ltac leaf Hm :=
  first
    [ exfalso; exact (continues_returns _ _ _ _ Hm)
    | exfalso; exact (returns_continues _ _ _ _ Hm)
    | apply continues_inv in Hm; destruct Hm as [? ?]; subst
    | apply returns_inv in Hm; destruct Hm as [? ?]; subst ].

(** Run a stage [Hm : stage = (t1, v)] on every answer. *)
Ltac explore Hm pre :=
  repeat (pre; eval_stage Hm; try rewrite applyComponents_spec in Hm;
          lazymatch type of Hm with
          | (_, _) = _ => fail
          | ?X = _ => let s := head_scrutinee X in destruct s eqn:?
          end);
  leaf Hm.

(** Prove an invariant of a concrete trace. *)
Ltac inv_solve :=
  cbv beta delta [quiet]; repeat split; intros; norm;
  first [ reflexivity | exact I ].

(** Use the invariant [Hinv] of an abstract stage on the goal. *)
Ltac absorb_rec Hinv :=
  lazymatch type of Hinv with
  | _ /\ _ =>
      let H1 := fresh in
      let H2 := fresh in
      destruct Hinv as [H1 H2]; absorb_rec H1; absorb_rec H2
  | True => clear Hinv
  | _ => try rewrite !Hinv; clear Hinv
  end.

Ltac absorb Hinv :=
  cbv beta delta [quiet] in Hinv;
  rewrite ?applied_app, ?statusWrites_app, ?rendered_app, ?degradations_app,
    ?ensured_app, ?cleared_app, ?fetched_app, ?degradedAfter_app;
  absorb_rec Hinv; norm.

Ltac advance H pre fin inv :=
  pre; cbv beta iota zeta in H;
  lazymatch type of H with
  | bind (call ?e) ?k = _ =>
      let t2 := fresh "t" in
      apply bind_call_inv in H; destruct H as (t2 & H & ->); norm
  | bind ?m ?k = _ =>
      let Hm := fresh "Hm" in
      let t1 := fresh "t" in
      let t2 := fresh "t" in
      let a := fresh "a" in
      let o := fresh "o" in
      apply bind_inv in H;
      destruct H as [(t1 & o & Hm & -> & ->) | (t1 & a & t2 & Hm & H & ->)];
      [ explore Hm pre; solve [fin]
      | first
          [ solve [ clear H; explore Hm pre ]
          | explore Hm pre; [ norm ]
          | let Hinv := fresh "Hinv" in
            assert (Hinv : inv t1) by (clear H; explore Hm pre; solve [inv_solve]);
            clear Hm; absorb Hinv
          | explore Hm pre; norm ] ]
  | Return _ _ = _ =>
      unfold Return in H; apply finished_inv in H; destruct H as [<- <-];
      solve [fin]
  | match ?s with _ => _ end = _ => destruct s eqn:?
  end.

Ltac fin_default :=
  norm; repeat split; intros; norm;
  first [ reflexivity | assumption | discriminate | contradiction | congruence ].

(** Start the walk of [Reconcile r w], naming what it computes. *)
Ltac walk r w H :=
  let t := fresh "t" in
  let x := fresh "x" in
  destruct (Reconcile r w) as [t x] eqn:H;
  unfold Reconcile in H.

(** ** The properties *)

(** C10: a Manager whose [Spec.Auth] is nil passes [GetManager]; the only
    resource it rejects is one with an auth config whose type is not Token. *)
Theorem GetManager_accepts_absent_auth (w : World) (instance : Manager) :
  client_Get_Manager w = ok instance ->
  (Auth_ (Spec instance) = None -> GetManager w = ok instance)
  /\ (forall e, GetManager w = failed e <->
                exists a, Auth_ (Spec instance) = Some a
                          /\ Type_ a <> AuthTypeToken K
                          /\ e = GetManager_authError).
Proof.
  intros Hget. unfold GetManager. rewrite Hget. unfold ok, failed. split.
  - intros ->. reflexivity.
  - intros e. destruct (Auth_ (Spec instance)) as [a|].
    + destruct (String.eqb_spec (Type_ a) (AuthTypeToken K)) as [Heq|Hne]; cbn [negb].
      * split; [discriminate|]. intros (a' & [= <-] & Hne & _). contradiction.
      * split.
        -- intros [= <-]. exists a. auto.
        -- intros (a' & _ & _ & ->). reflexivity.
    + split; [discriminate|]. intros (a' & Hsome & _). discriminate.
Qed.

(** C2, as the code has it: a Manager whose auth type is set and is not Token
    ends the pass at once, after the Manager was read and before anything
    else is: the status is set degraded and the error of [GetManager] is
    returned.  Its message is one fixed text, whatever the type was. *)
Theorem unsupported_auth_fails_first (r : ReconcileManager) (w : World)
    (instance : Manager) (a : Auth) :
  client_Get_Manager w = ok instance ->
  Auth_ (Spec instance) = Some a ->
  Type_ a <> AuthTypeToken K ->
  pass r w =
    mkRun [Fetch DManager; SetDegraded "Error querying Manager" (Error GetManager_authError)]
          (mkOutcome Result_zero (Some GetManager_authError))
  /\ Error GetManager_authError =
     "auth types other than 'Token' can no longer be configured using the Manager CR, please use the Authentication CR instead".
Proof.
  intros Hget Hauth Hne. split; [|reflexivity].
  assert (HGM : GetManager w = failed GetManager_authError).
  { unfold GetManager. rewrite Hget. unfold ok. rewrite Hauth.
    destruct (String.eqb_spec (Type_ a) (AuthTypeToken K)); [contradiction|reflexivity]. }
  unfold pass, Reconcile. unfold failed in HGM. rewrite HGM. reflexivity.
Qed.

(** C9: a pass that gets to the license-API-ready flag and finds it unset
    sets the status degraded with reason "Waiting for LicenseKeyAPI to be
    ready", returns no error, and asks to be run again after 10 seconds. *)
Theorem license_api_not_ready_waits (r : ReconcileManager) (w : World)
    (d0 : option (string * string)) :
  licenseAPIReady r = false ->
  reaches r w DLicenseAPIReady ->
  degradedAfter d0 (trace (pass r w)) = Some ("Waiting for LicenseKeyAPI to be ready", "")
  /\ err (outcome (pass r w)) = None
  /\ res (outcome (pass r w)) = mkResult false (10 * time_Second)%Z
  /\ (10 * time_Second = 10000000000)%Z
  /\ applied (trace (pass r w)) = []
  /\ statusWrites (trace (pass r w)) = [].
Proof.
  intros Hflag Hreach. unfold reaches, pass in *. revert Hreach.
  walk r w H. norm. rewrite Hflag in H.
  repeat advance H idtac fin_default (fun _ : list Event => True).
Qed.

(** C1, as the code has it: when the license read fails, with a not-found
    error or with any other, the pass sets the status degraded (reason
    "License not found" or "Error querying license"), returns no error, and
    asks to be run again after 10 seconds. *)
Theorem license_fetch_error_waits (r : ReconcileManager) (w : World) (e : error)
    (d0 : option (string * string)) :
  reaches r w DLicenseKey ->
  FetchLicenseKey w = failed e ->
  degradedAfter d0 (trace (pass r w)) =
    Some (if IsNotFound e then "License not found" else "Error querying license", Error e)
  /\ outcome (pass r w) = mkOutcome (mkResult false (10 * time_Second)%Z) None
  /\ applied (trace (pass r w)) = []
  /\ statusWrites (trace (pass r w)) = [].
Proof.
  intros Hreach Hfetch. unfold reaches, pass in *. revert Hreach.
  walk r w H. norm. unfold failed in Hfetch. rewrite Hfetch in H.
  repeat advance H idtac fin_default (fun _ : list Event => True).
Qed.

(** With both a ManagementCluster and a ManagementClusterConnection in the
    cluster no pass, however far it gets, applies or renders anything,
    writes the status or clears the degraded condition. *)
Lemma both_topologies_apply_nothing (r : ReconcileManager) (w : World)
    (mc : ManagementCluster) (mcc : ManagementClusterConnection) :
  GetManagementCluster w = ok (Some mc) ->
  GetManagementClusterConnection w = ok (Some mcc) ->
  applied (trace (pass r w)) = []
  /\ statusWrites (trace (pass r w)) = []
  /\ rendered (trace (pass r w)) = []
  /\ cleared (trace (pass r w)) = false.
Proof.
  intros Hmc Hmcc. unfold pass. walk r w H. norm.
  unfold ok in *. rewrite Hmc, Hmcc in H.
  repeat advance H idtac fin_default quiet.
Qed.

(** C3: with both a ManagementCluster and a ManagementClusterConnection in
    the cluster, the pass that reads both sets the status degraded with the
    conflict error's text, returns that error, and applies no component: it
    renders nothing, writes no status and does not clear the degraded
    condition. *)
Theorem both_topologies_conflict (r : ReconcileManager) (w : World)
    (mc : ManagementCluster) (mcc : ManagementClusterConnection)
    (d0 : option (string * string)) :
  GetManagementCluster w = ok (Some mc) ->
  GetManagementClusterConnection w = ok (Some mcc) ->
  reaches r w DManagementClusterConnection ->
  degradedAfter d0 (trace (pass r w)) = Some (Error conflictError, "")
  /\ outcome (pass r w) = mkOutcome Result_zero (Some conflictError)
  /\ applied (trace (pass r w)) = []
  /\ statusWrites (trace (pass r w)) = []
  /\ rendered (trace (pass r w)) = []
  /\ cleared (trace (pass r w)) = false
  /\ Error conflictError =
     "having both a ManagementCluster and a ManagementClusterConnection is not supported".
Proof.
  intros Hmc Hmcc Hreach. unfold reaches, pass in *. revert Hreach.
  walk r w H. norm. unfold ok in *. rewrite Hmc, Hmcc in H.
  repeat advance H idtac fin_default
    (fun t1 => quiet t1 /\ fetched DManagementClusterConnection t1 = false).
Qed.

(** With certificate management delegated, a manager TLS secret whose
    certificate is not known to be the operator's (it was issued by someone
    else, or it cannot be read) is never accepted: no pass, however far it
    gets, renders or applies anything, writes the status or clears the
    degraded condition. *)
Lemma unissued_certificate_never_accepted (r : ReconcileManager) (w : World)
    (v : ProductVariant) (inst : Installation) (cm : CertificateManagement)
    (s : Secret) :
  GetInstallation w = ok (v, inst) ->
  CertificateManagement_ inst = Some cm ->
  ValidateCertPair w (OperatorNamespace K) (ManagerTLSSecretName K)
    (ManagerSecretKeyName K) (ManagerSecretCertName K) = ok (Some s) ->
  IsCertOperatorIssued (Data_get (Data s) (ManagerInternalSecretCertName K)) <> ok true ->
  rendered (trace (pass r w)) = []
  /\ applied (trace (pass r w)) = []
  /\ statusWrites (trace (pass r w)) = []
  /\ cleared (trace (pass r w)) = false.
Proof.
  intros Hinst Hcm Hpair Hissued. unfold pass. walk r w H. norm.
  unfold ok in *. rewrite Hinst, Hpair in H.
  repeat advance H ltac:(rewrite ?Hcm in *) fin_default quiet.
Qed.

(** C8: with certificate management delegated and a manager TLS secret whose
    certificate was not issued by the operator, the pass that reads the
    secret sets the status degraded with reason "Invalid certificate
    configuration" and returns the error saying a user provided secret is
    not supported; it renders and applies nothing and writes no status. *)
Theorem user_provided_cert_rejected (r : ReconcileManager) (w : World)
    (v : ProductVariant) (inst : Installation) (cm : CertificateManagement)
    (s : Secret) (d0 : option (string * string)) :
  GetInstallation w = ok (v, inst) ->
  CertificateManagement_ inst = Some cm ->
  ValidateCertPair w (OperatorNamespace K) (ManagerTLSSecretName K)
    (ManagerSecretKeyName K) (ManagerSecretCertName K) = ok (Some s) ->
  IsCertOperatorIssued (Data_get (Data s) (ManagerInternalSecretCertName K)) = ok false ->
  reaches r w (DCertPair (OperatorNamespace K) (ManagerTLSSecretName K)) ->
  degradedAfter d0 (trace (pass r w)) =
    Some ("Invalid certificate configuration", Error userProvidedError)
  /\ outcome (pass r w) = mkOutcome Result_zero (Some userProvidedError)
  /\ rendered (trace (pass r w)) = []
  /\ applied (trace (pass r w)) = []
  /\ statusWrites (trace (pass r w)) = []
  /\ Error userProvidedError =
     "user provided secret " +++ ManagerNamespace K +++ "/" +++ ManagerTLSSecretName K
     +++ " is not supported when certificate management is enabled".
Proof.
  intros Hinst Hcm Hpair Hissued Hreach. unfold reaches, pass in *. revert Hreach.
  walk r w H. norm. unfold ok in *. rewrite Hinst, Hpair in H.
  repeat advance H ltac:(rewrite ?Hcm, ?Hissued in *) fin_default
    (fun _ : list Event => True).
Qed.

Ltac fin_synth :=
  norm; repeat split; intros; norm; cbn [In] in *;
  first [ reflexivity | discriminate | contradiction
        | match goal with
            Hin : _ \/ False |- _ => destruct Hin as [<-|[]]; reflexivity
          end ].

(** C6: with certificate management not delegated and no manager TLS secret
    in the cluster, a pass that gets to the certificate asks once for a
    secret, with the service's DNS names followed by "localhost" and a
    validity of 825 * 24 hours; the certificate synthesized carries exactly
    those names and that validity, and it is the key pair handed to
    rendering. *)
Theorem synthesized_certificate_names_and_validity (r : ReconcileManager) (w : World)
    (v : ProductVariant) (inst : Installation) :
  GetInstallation w = ok (v, inst) ->
  CertificateManagement_ inst = None ->
  ValidateCertPair w (OperatorNamespace K) (ManagerTLSSecretName K)
    (ManagerSecretKeyName K) (ManagerSecretCertName K) = ok None ->
  CreateOperatorTLSSecret_err w = None ->
  reaches r w (DCertPair (OperatorNamespace K) (ManagerTLSSecretName K)) ->
  let names :=
    GetServiceDNSNames (ManagerServiceName K) (ManagerNamespace K) (clusterDomain r)
    ++ ["localhost"] in
  let dur := (825 * 24 * time_Hour)%Z in
  let s := synthesized (ManagerTLSSecretName K) (ManagerSecretKeyName K)
             (ManagerSecretCertName K) dur names in
  ensured (trace (pass r w)) = [(None, dur, names)]
  /\ EnsureCertificateSecret w (ManagerTLSSecretName K) None (ManagerSecretKeyName K)
       (ManagerSecretCertName K) dur names = ok (Some s, true)
  /\ Data_get (Data s) (ManagerSecretCertName K)
     = Some (CertMaterial (mkCertificate names dur OperatorManaged))
  /\ (forall cfg, In cfg (rendered (trace (pass r w))) -> TLSKeyPair cfg = Some s)
  /\ dur = (825 * 24 * (60 * 60 * 1000000000))%Z.
Proof.
  intros Hinst Hcm Hpair Hgen Hreach names dur s.
  assert (Hget : Data_get (Data s) (ManagerSecretCertName K)
                 = Some (CertMaterial (mkCertificate names dur OperatorManaged))).
  { subst s. cbn. rewrite String.eqb_refl. reflexivity. }
  assert (Hens : EnsureCertificateSecret w (ManagerTLSSecretName K) None
                   (ManagerSecretKeyName K) (ManagerSecretCertName K) dur names
                 = ok (Some s, true)).
  { unfold EnsureCertificateSecret. rewrite Hgen. reflexivity. }
  split; [|split; [exact Hens|split; [exact Hget|split; [|reflexivity]]]].
  - clear Hget. subst s names dur. unfold reaches, pass in *. revert Hreach.
    walk r w H. norm. unfold ok in *. rewrite Hinst, Hpair in H.
    repeat advance H ltac:(rewrite ?Hcm, ?Hens in *) fin_synth
      (fun t1 : list Event => ensured t1 = []).
  - clear Hget. intros cfg. subst s names dur. unfold reaches, pass in *.
    revert Hreach. walk r w H. norm. unfold ok in *. rewrite Hinst, Hpair in H.
    repeat advance H ltac:(rewrite ?Hcm, ?Hens in *) fin_synth
      (fun t1 : list Event => rendered t1 = []).
Qed.

Ltac fin_replicas :=
  norm; intros; cbn [In] in *;
  first
    [ contradiction
    | match goal with Hin : _ \/ False |- _ => destruct Hin as [<-|[]] end;
      do 4 eexists; unfold ok;
      split; [reflexivity|]; split; [reflexivity|]; split; [reflexivity|];
      cbn [Replicas];
      repeat match goal with
             | |- context [match ?o with _ => _ end] => destruct o
             end;
      split; intros; first [reflexivity | congruence | intuition congruence] ].

(** C7: the configuration a pass hands to rendering has replica count 1 when
    a ManagementCluster or a ManagementClusterConnection exists, and the
    installation's [ControlPlaneReplicas] when neither does. *)
Theorem replicas_one_for_multicluster (r : ReconcileManager) (w : World)
    (cfg : ManagerConfiguration) :
  In cfg (rendered (trace (pass r w))) ->
  exists v inst mc mcc,
    GetInstallation w = ok (v, inst)
    /\ GetManagementCluster w = ok mc
    /\ GetManagementClusterConnection w = ok mcc
    /\ (mc <> None \/ mcc <> None -> Replicas cfg = Some 1%Z)
    /\ (mc = None -> mcc = None -> Replicas cfg = ControlPlaneReplicas inst).
Proof.
  unfold pass. walk r w H. norm.
  repeat advance H idtac fin_replicas (fun t1 : list Event => rendered t1 = []).
Qed.

Ltac fin_status :=
  norm; rewrite ?app_nil_r; split; intros; cbn [In] in *;
  first
    [ contradiction | discriminate | reflexivity
    | match goal with Hin : _ \/ False |- _ => destruct Hin as [<-|[]] end;
      repeat split; norm;
      first
        [ reflexivity
        | apply firstFailure_None_Forall; assumption
        | let Hnil := fresh in
          intros Hnil; apply app_eq_nil in Hnil; destruct Hnil; discriminate ] ].

(** C4: the status sub-resource is written only by a pass that set no
    degraded condition, applied its components, each without error, and
    cleared the degraded condition, and only when the status manager reports
    available; what is written has state Ready.  When it does not report
    available, nothing is written. *)
Theorem status_written_only_when_available (r : ReconcileManager) (w : World)
    (instance : Manager) :
  (In instance (statusWrites (trace (pass r w))) ->
   IsAvailable w = true
   /\ State (Status instance) = TigeraStatusReady K
   /\ degradations (trace (pass r w)) = []
   /\ cleared (trace (pass r w)) = true
   /\ applied (trace (pass r w)) <> []
   /\ Forall (fun c => CreateOrUpdateOrDelete w c = None) (applied (trace (pass r w))))
  /\ (IsAvailable w = false -> statusWrites (trace (pass r w)) = []).
Proof.
  unfold pass. walk r w H. norm.
  repeat advance H idtac fin_status quiet.
Qed.

Lemma throughFirstFailure_nil (w : World) (cs : list Component) :
  throughFirstFailure w cs = [] -> cs = [].
Proof.
  destruct cs as [|c cs]; cbn; [reflexivity|].
  destruct (CreateOrUpdateOrDelete w c); discriminate.
Qed.

(** Two answers of the cluster to the same question are the same answer. *)
Ltac same_answer :=
  repeat match goal with
         | H1 : ?f = inl ?a, H2 : ?f = inl ?b |- _ =>
             is_var a; assert_fails (constr_eq a b);
             let E := fresh in
             assert (E : a = b) by congruence; subst a
         end.

Ltac fin_order :=
  norm; rewrite ?app_nil_r;
  let Hin := fresh "Hin" in
  intros Hin; cbn [In] in Hin;
  first
    [ contradiction
    | destruct Hin as [<-|[]]; unfold ok in *; same_answer;
      first
        [ congruence
        | match goal with
          | Hff : firstFailure ?w (?X ++ [RenderedSet ?c]) = _ |- _ =>
              exists X;
              rewrite Hff; rewrite ?(firstFailure_None_through _ _ Hff);
              split; [reflexivity|];
              split;
              [ repeat match goal with
                       | |- context [match ?o with _ => _ end] => destruct o
                       end;
                cbn [TLSKeyPair];
                first [ left; reflexivity | right; eexists; split; reflexivity ]
              | split; [reflexivity|];
                split;
                [ let Hnil := fresh in
                  intros Hnil; try apply throughFirstFailure_nil in Hnil;
                  apply app_eq_nil in Hnil; destruct Hnil; discriminate
                | norm; repeat split; reflexivity ] ]
          end ] ].

(** C5: the apply loop hands the components to the handler in list order and
    stops at the first one that fails: what it applied is the list up to and
    including that component, nothing after it, and its error is what the
    loop returns.  A pass that rendered, and whose rendered component had its
    images resolved, runs that loop on the passthrough of the TLS key pair,
    when there is one to pass through, followed by the rendered component:
    it applies at least one component; when one fails it stops there, sets
    the status degraded and returns that component's error; when none fails
    it has applied them all, in that order, and clears the degraded
    condition. *)
Theorem components_applied_in_order (r : ReconcileManager) (w : World)
    (d0 : option (string * string)) (cfg : ManagerConfiguration)
    (v : ProductVariant) (inst : Installation) (c main : Rendered) :
  In cfg (rendered (trace (pass r w))) ->
  GetInstallation w = ok (v, inst) ->
  render_Manager w cfg = ok c ->
  ApplyImageSet w v c = ok main ->
  (forall cs,
     applied (fst (applyComponents w cs)) = throughFirstFailure w cs
     /\ match firstFailure w cs with
        | Some e =>
            snd (applyComponents w cs) = inr (mkOutcome Result_zero (Some e))
            /\ exists before c after,
                 cs = before ++ c :: after
                 /\ Forall (fun c' => CreateOrUpdateOrDelete w c' = None) before
                 /\ CreateOrUpdateOrDelete w c = Some e
                 /\ throughFirstFailure w cs = before ++ [c]
        | None =>
            snd (applyComponents w cs) = inl tt
            /\ Forall (fun c => CreateOrUpdateOrDelete w c = None) cs
            /\ throughFirstFailure w cs = cs
        end)
  /\ exists passthrough,
       rendered (trace (pass r w)) = [cfg]
       /\ (passthrough = []
           \/ exists s, TLSKeyPair cfg = Some s
                        /\ passthrough = [NewPassthrough [s]])
       /\ applied (trace (pass r w))
          = throughFirstFailure w (passthrough ++ [RenderedSet main])
       /\ applied (trace (pass r w)) <> []
       /\ match firstFailure w (passthrough ++ [RenderedSet main]) with
          | Some e =>
              outcome (pass r w) = mkOutcome Result_zero (Some e)
              /\ degradedAfter d0 (trace (pass r w))
                 = Some ("Error creating / updating resource", Error e)
              /\ cleared (trace (pass r w)) = false
              /\ statusWrites (trace (pass r w)) = []
          | None =>
              applied (trace (pass r w)) = passthrough ++ [RenderedSet main]
              /\ cleared (trace (pass r w)) = true
          end.
Proof.
  intros Hin Hinst Hrender Himg. split.
  - intros cs. rewrite applyComponents_spec.
    pose proof (firstFailure_split w cs) as Hsplit.
    destruct (firstFailure w cs) as [e|]; cbn [fst snd].
    + rewrite applied_app, applied_map_Apply. cbn [applied]. rewrite app_nil_r.
      split; [reflexivity|]. split; [reflexivity|exact Hsplit].
    + rewrite applied_map_Apply. destruct Hsplit as [Hall Hthrough].
      split; [symmetry; exact Hthrough|]. split; [reflexivity|]. split; assumption.
  - revert Hin. unfold pass. walk r w H. norm.
    unfold ok in Hinst. rewrite Hinst in H.
    repeat advance H idtac fin_order quiet.
Qed.

(** ** Further properties of a pass *)

(** Whether every [SetDegraded] of [t] is the last call of [t]. *)
Fixpoint settled (t : list Event) : bool :=
  match t with
  | [] => true
  | SetDegraded _ _ :: t' => match t' with [] => true | _ :: _ => false end
  | _ :: t' => settled t'
  end.

(** The secrets read by name, as pairs (name, namespace), in order. *)
Fixpoint secretsRead (t : list Event) : list (string * string) :=
  match t with
  | [] => []
  | Fetch (DCertPair namespace name) :: t' => (name, namespace) :: secretsRead t'
  | Fetch (DSecret name namespace) :: t' => (name, namespace) :: secretsRead t'
  | _ :: t' => secretsRead t'
  end.

Lemma settled_spec (t : list Event) :
  settled t = true ->
  forall pre reason msg post,
    t = pre ++ SetDegraded reason msg :: post -> post = [] /\ degradations pre = [].
Proof.
  induction t as [|e t IH]; intros Hs pre reason msg post Heq.
  - destruct pre; discriminate.
  - destruct pre as [|e' pre]; cbn [app] in Heq.
    + injection Heq as -> ->. cbn [settled] in Hs.
      destruct post; [split; reflexivity|discriminate].
    + injection Heq as <- ->.
      destruct e; cbn [settled degradations] in *;
        try (apply (IH Hs pre reason msg post eq_refl)).
      destruct pre; discriminate.
Qed.

Lemma settled_map_Apply_app (cs : list Component) (t : list Event) :
  settled (map Apply cs ++ t) = settled t.
Proof. induction cs as [|c cs IH]; cbn; congruence. Qed.

Lemma secretsRead_map_Apply_app (cs : list Component) (t : list Event) :
  secretsRead (map Apply cs ++ t) = secretsRead t.
Proof. induction cs as [|c cs IH]; cbn; congruence. Qed.

Lemma throughFirstFailure_In (w : World) (cs : list Component) (c : Component) :
  In c (throughFirstFailure w cs) -> In c cs.
Proof.
  induction cs as [|c' cs IH]; cbn; [tauto|].
  destruct (CreateOrUpdateOrDelete w c'); cbn; tauto.
Qed.

(** Once the answer [a] of the cluster is known to be a value, tell apart
    whether that value is there or nil. *)
Ltac split_answer a :=
  try match goal with
      | Hx : a = inl ?m |- _ => is_var m; destruct m
      end.

(** Read [Hin : In c l] for a list [l] that is known but for its tail. *)
Ltac in_cases Hin :=
  try (apply in_app_or in Hin; destruct Hin as [Hin|Hin]);
  repeat match type of Hin with
         | In _ (match ?o with _ => _ end) => destruct o
         | In _ (if ?b then _ else _) => destruct b
         end;
  cbn [app In] in Hin;
  repeat match type of Hin with
         | _ \/ _ => destruct Hin as [Hin|Hin]
         end;
  first [ contradiction | discriminate | injection Hin as <- <- | injection Hin as <-
        | subst ].

(** X1: the Manager resource is absent: the status manager is told so, and the
    pass ends there with no error, no degraded condition and no requeue. *)
Theorem manager_absent_ends_quietly (r : ReconcileManager) (w : World) (e : error) :
  client_Get_Manager w = failed e ->
  IsNotFound e = true ->
  GetManager w = failed e
  /\ pass r w = mkRun [Fetch DManager; OnCRNotFound] (mkOutcome Result_zero None).
Proof.
  intros Hget Hnf.
  assert (HGM : GetManager w = failed e) by (unfold GetManager; rewrite Hget; reflexivity).
  split; [exact HGM|].
  unfold pass, Reconcile. unfold failed in HGM. rewrite HGM, Hnf. reflexivity.
Qed.

(** X2: a pass calls [SetDegraded] at most once, and as its last call: the
    condition the status shows is the one that ended the pass. *)
Theorem degraded_is_the_last_call (r : ReconcileManager) (w : World)
    (pre post : list Event) (reason msg : string) :
  trace (pass r w) = pre ++ SetDegraded reason msg :: post ->
  post = [] /\ degradations pre = [] /\ cleared pre = false.
Proof.
  assert (Hs : settled (trace (pass r w)) = true
               /\ (degradations (trace (pass r w)) = []
                   \/ cleared (trace (pass r w)) = false)).
  { unfold pass. walk r w H. norm.
    repeat advance H
      ltac:(cbn [settled]; rewrite ?settled_map_Apply_app)
      ltac:(norm; rewrite ?settled_map_Apply_app; cbn [settled];
            split; [reflexivity | first [left; reflexivity | right; reflexivity]])
      (fun t1 : list Event => quiet t1 /\ forall t2, settled (t1 ++ t2) = settled t2). }
  destruct Hs as [Hs Hc]. intros Heq.
  destruct (settled_spec _ Hs pre reason msg post Heq) as [-> Hd].
  split; [reflexivity|]. split; [exact Hd|].
  rewrite Heq, degradations_app, cleared_app in Hc. cbn in Hc.
  destruct Hc as [Hc|Hc].
  - apply app_eq_nil in Hc. destruct Hc. discriminate.
  - apply orb_false_iff in Hc. tauto.
Qed.
Ltac fin_reported :=
  norm; intros;
  first
    [ discriminate
    | match goal with
      | Heq : Some _ = Some _ |- _ => injection Heq as <-
      end;
      first
        [ left; do 2 eexists; split; [reflexivity|];
          first [ left; reflexivity
                | right; left; reflexivity
                | right; right; split; [reflexivity|assumption] ]
        | right; split; [reflexivity|]; split; [reflexivity|];
          eexists; split; [reflexivity|assumption] ] ].

(** X3: an error a pass returns is always on the status: the pass has called
    [SetDegraded] once, with the error's text as the message (as the reason,
    for the topology conflict; a fixed message, for the missing prometheus
    namespace).  The one exception is the error of the final status write,
    which is returned after the degraded condition was cleared. *)
Theorem returned_error_is_reported (r : ReconcileManager) (w : World) (e : error) :
  err (outcome (pass r w)) = Some e ->
  (exists reason msg,
     degradations (trace (pass r w)) = [(reason, msg)]
     /\ (msg = Error e
         \/ reason = Error e
         \/ (reason = "tigera-prometheus namespace does not exist"
             /\ IsNotFound e = true)))
  \/ (degradations (trace (pass r w)) = []
      /\ cleared (trace (pass r w)) = true
      /\ exists instance,
           statusWrites (trace (pass r w)) = [instance]
           /\ Status_Update w instance = Some e).
Proof.
  unfold pass. walk r w H. norm.
  repeat advance H idtac fin_reported quiet.
Qed.

Ltac fin_requeue :=
  norm; split; [reflexivity|];
  first
    [ left; reflexivity
    | right; split; [reflexivity|]; split; [reflexivity|];
      do 2 eexists; split; [reflexivity|]; cbn [In]; auto ].

(** X4: a pass never sets [Requeue]; it asks for a timed requeue only at the
    license gate (flag unset, license absent or unreadable), always of 10
    seconds and always without an error.  Every other way out leaves the
    requeue to the returned error or to the watches. *)
Theorem timed_requeue_only_at_license_gate (r : ReconcileManager) (w : World) :
  Requeue (res (outcome (pass r w))) = false
  /\ (RequeueAfter (res (outcome (pass r w))) = 0%Z
      \/ (RequeueAfter (res (outcome (pass r w))) = (10 * time_Second)%Z
          /\ err (outcome (pass r w)) = None
          /\ exists reason msg,
               degradations (trace (pass r w)) = [(reason, msg)]
               /\ In reason ["Waiting for LicenseKeyAPI to be ready";
                             "License not found"; "Error querying license"])).
Proof.
  unfold pass. walk r w H. norm.
  repeat advance H idtac fin_requeue quiet.
Qed.

Ltac fin_healthy :=
  norm; rewrite ?app_nil_r; intros;
  first
    [ discriminate
    | unfold ok;
      repeat match goal with
             | |- _ /\ _ => split
             | |- exists _, _ => eexists
             end;
      first
        [ eassumption | reflexivity
        | apply firstFailure_None_Forall; assumption ] ].

(** X5: the degraded condition is cleared only by a pass that found the cluster
    in order: API server and license API ready, license, installation, pull
    secrets, prometheus namespace, Elasticsearch configuration and secrets,
    Kibana certificate and packet capture certificate all read, the
    configuration rendered, and every component applied without error. *)
Theorem degraded_cleared_only_when_healthy (r : ReconcileManager) (w : World) :
  cleared (trace (pass r w)) = true ->
  IsAPIServerReady w = true
  /\ licenseAPIReady r = true
  /\ (exists license, FetchLicenseKey w = ok license)
  /\ (exists variant installation pullSecrets,
        GetInstallation w = ok (variant, installation)
        /\ GetNetworkingPullSecrets w installation = ok pullSecrets)
  /\ client_Get_Namespace w (TigeraPrometheusNamespace K) = None
  /\ (exists c, GetElasticsearchClusterConfig w = ok c)
  /\ (exists s, ElasticsearchSecrets w [ElasticsearchManagerUserSecret K] = ok s)
  /\ (exists s, client_Get_Secret w (KibanaPublicCertSecret K) (OperatorNamespace K) = ok s)
  /\ (exists s, ValidateCertPair w (OperatorNamespace K) (PacketCaptureCertSecret K)
                  "" (TLSCertKey K) = ok (Some s))
  /\ (exists cfg c, rendered (trace (pass r w)) = [cfg] /\ render_Manager w cfg = ok c)
  /\ Forall (fun c => CreateOrUpdateOrDelete w c = None) (applied (trace (pass r w)))
  /\ degradations (trace (pass r w)) = [].
Proof.
  unfold pass. walk r w H. norm.
  repeat advance H idtac fin_healthy quiet.
Qed.
Ltac fin_config :=
  norm; intros; cbn [In] in *;
  first
    [ contradiction
    | match goal with Hin : _ \/ False |- _ => destruct Hin as [<-|[]] end;
      subst; unfold ok;
      cbn [KeyValidatorConfig_ ESSecrets KibanaSecrets ComplianceServerCertSecret_
           PacketCaptureServerCertSecret PrometheusCertSecret ESClusterConfig
           TLSKeyPair PullSecrets Openshift Installation_ ManagementCluster_
           TunnelSecret InternalTrafficSecret ClusterDomain ESLicenseType Replicas];
      repeat match goal with
             | |- _ /\ _ => split
             | |- exists _, _ => eexists
             end;
      first [ eassumption | reflexivity | discriminate ] ].

(** X6: what is handed to [render.Manager] is what the pass read from the
    cluster: the installation and its pull secrets, the Elasticsearch
    configuration and secrets, the one Kibana certificate, the management
    cluster, the packet capture certificate (always present), the prometheus
    certificate (present or not), the key validator configuration computed
    from the authentication resource, the reconciler's cluster domain, and
    whether its provider is OpenShift. *)
Theorem configuration_is_what_was_read (r : ReconcileManager) (w : World)
    (cfg : ManagerConfiguration) :
  In cfg (rendered (trace (pass r w))) ->
  (exists variant,
     GetInstallation w = ok (variant, Installation_ cfg))
  /\ GetNetworkingPullSecrets w (Installation_ cfg) = ok (PullSecrets cfg)
  /\ GetElasticsearchClusterConfig w = ok (ESClusterConfig cfg)
  /\ ElasticsearchSecrets w [ElasticsearchManagerUserSecret K] = ok (ESSecrets cfg)
  /\ (exists kibana,
        client_Get_Secret w (KibanaPublicCertSecret K) (OperatorNamespace K) = ok kibana
        /\ KibanaSecrets cfg = [kibana])
  /\ GetManagementCluster w = ok (ManagementCluster_ cfg)
  /\ (exists s,
        ValidateCertPair w (OperatorNamespace K) (PacketCaptureCertSecret K) "" (TLSCertKey K)
        = ok (Some s)
        /\ PacketCaptureServerCertSecret cfg = Some s)
  /\ ValidateCertPair w (OperatorNamespace K) (PrometheusTLSSecretName K) "" (TLSCertKey K)
     = ok (PrometheusCertSecret cfg)
  /\ (exists authentication getErr,
        GetAuthentication w = (authentication, getErr)
        /\ GetKeyValidatorConfig w authentication (clusterDomain r)
           = ok (KeyValidatorConfig_ cfg))
  /\ ClusterDomain cfg = clusterDomain r
  /\ Openshift cfg = String.eqb (provider r) (ProviderOpenShift K).
Proof.
  unfold pass. walk r w H. norm.
  repeat advance H idtac fin_config (fun t1 : list Event => rendered t1 = []).
Qed.
(** X7: the tunnel secret and the internal traffic secret are read, and handed
    to rendering, exactly when a ManagementCluster exists; both are then the
    secrets found in the operator namespace.  Without one, neither is set. *)
Theorem hub_secrets_only_for_management_cluster (r : ReconcileManager) (w : World)
    (cfg : ManagerConfiguration) :
  In cfg (rendered (trace (pass r w))) ->
  match ManagementCluster_ cfg with
  | Some _ =>
      exists tunnel internal,
        client_Get_Secret w (VoltronTunnelSecretName K) (OperatorNamespace K) = ok tunnel
        /\ client_Get_Secret w (ManagerInternalTLSSecretName K) (OperatorNamespace K)
           = ok internal
        /\ TunnelSecret cfg = Some tunnel
        /\ InternalTrafficSecret cfg = Some internal
        /\ GetManagementClusterConnection w = ok None
  | None => TunnelSecret cfg = None /\ InternalTrafficSecret cfg = None
  end.
Proof.
  unfold pass. walk r w H. norm.
  repeat advance H ltac:(split_answer (GetManagementCluster w);
                         split_answer (GetManagementClusterConnection w))
    fin_config (fun t1 : list Event => rendered t1 = []).
Qed.

Ltac fin_cases :=
  norm; intros; cbn [In] in *;
  first
    [ contradiction
    | match goal with Hin : _ \/ False |- _ => destruct Hin as [<-|[]] end;
      subst; unfold ok in *;
      cbn [KeyValidatorConfig_ ESSecrets KibanaSecrets ComplianceServerCertSecret_
           PacketCaptureServerCertSecret PrometheusCertSecret ESClusterConfig
           TLSKeyPair PullSecrets Openshift Installation_ ManagementCluster_
           TunnelSecret InternalTrafficSecret ClusterDomain ESLicenseType Replicas];
      repeat first [ progress intros | split ];
      first [ discriminate | eassumption | reflexivity | congruence ] ].

(** X8: the Elasticsearch license type is looked up only when the cluster is not
    a managed one: with a ManagementClusterConnection the lookup is skipped
    and rendering gets the zero value; without one it gets what the lookup
    returned. *)
Theorem elastic_license_skipped_for_managed_cluster (r : ReconcileManager) (w : World)
    (cfg : ManagerConfiguration) :
  In cfg (rendered (trace (pass r w))) ->
  (forall mcc,
     GetManagementClusterConnection w = ok (Some mcc) ->
     ESLicenseType cfg = ElasticsearchLicenseType_zero
     /\ fetched DElasticLicenseType (trace (pass r w)) = false)
  /\ (GetManagementClusterConnection w = ok None ->
      GetElasticLicenseType w = ok (ESLicenseType cfg)
      /\ fetched DElasticLicenseType (trace (pass r w)) = true).
Proof.
  unfold pass. walk r w H. norm.
  repeat advance H ltac:(split_answer (GetManagementClusterConnection w)) fin_cases
    (fun t1 : list Event => rendered t1 = [] /\ fetched DElasticLicenseType t1 = false).
Qed.
Ltac fin_compliance :=
  norm; intros; cbn [In] in *;
  first
    [ contradiction
    | match goal with Hin : _ \/ False |- _ => destruct Hin as [<-|[]] end;
      subst; unfold ok;
      cbn [ComplianceServerCertSecret_];
      repeat match goal with
             | |- _ /\ _ => split
             | |- exists _, _ => eexists
             end;
      first [ eassumption | reflexivity | apply String.eqb_eq; assumption ] ].

(** X9: compliance is looked at only when the license turns the compliance
    feature on.  Then rendering happens only with the compliance resource
    Ready and its server certificate present, and gets that certificate;
    otherwise the compliance resource is never read and rendering gets no
    certificate for it. *)
Theorem compliance_checked_only_when_licensed (r : ReconcileManager) (w : World)
    (license : LicenseKey) (cfg : ManagerConfiguration) :
  FetchLicenseKey w = ok license ->
  In cfg (rendered (trace (pass r w))) ->
  if IsFeatureActive license (ComplianceFeature K)
  then exists compliance s,
         GetCompliance w = ok compliance
         /\ Compliance_State compliance = TigeraStatusReady K
         /\ ValidateCertPair w (OperatorNamespace K) (ComplianceServerCertSecret K)
              "" (TLSCertKey K) = ok (Some s)
         /\ ComplianceServerCertSecret_ cfg = Some s
  else ComplianceServerCertSecret_ cfg = None
       /\ fetched DCompliance (trace (pass r w)) = false.
Proof.
  intros Hlicense. unfold pass. walk r w H. norm.
  unfold ok in Hlicense. rewrite Hlicense in H.
  repeat advance H idtac fin_compliance
    (fun t1 : list Event => rendered t1 = [] /\ fetched DCompliance t1 = false).
Qed.

Ltac fin_delegation prefix :=
  norm; repeat split; intros;
  first
    [ reflexivity
    | match goal with
      | Hin : In _ _ |- _ =>
          rewrite ?app_nil_r in Hin; try apply prefix in Hin; in_cases Hin
      end;
      cbn [TLSKeyPair]; unfold ok;
      first
        [ eassumption | reflexivity
        | eexists; repeat split; first [ eassumption | reflexivity ] ] ].

(** X10: with certificate management delegated the operator never generates a
    certificate: [EnsureCertificateSecret] is not called, rendering gets the
    manager TLS secret as it was found (or none), and the only secret ever
    passed through to the manager namespace is that secret, and only when its
    certificate was issued by the operator's CA. *)
Theorem no_certificate_generated_under_delegation (r : ReconcileManager) (w : World)
    (v : ProductVariant) (inst : Installation) (cm : CertificateManagement) :
  GetInstallation w = ok (v, inst) ->
  CertificateManagement_ inst = Some cm ->
  ensured (trace (pass r w)) = []
  /\ (forall cfg,
        In cfg (rendered (trace (pass r w))) ->
        ValidateCertPair w (OperatorNamespace K) (ManagerTLSSecretName K)
          (ManagerSecretKeyName K) (ManagerSecretCertName K) = ok (TLSKeyPair cfg))
  /\ (forall objs,
        In (NewPassthrough objs) (applied (trace (pass r w))) ->
        exists s,
          objs = [s]
          /\ ValidateCertPair w (OperatorNamespace K) (ManagerTLSSecretName K)
               (ManagerSecretKeyName K) (ManagerSecretCertName K) = ok (Some s)
          /\ IsCertOperatorIssued (Data_get (Data s) (ManagerInternalSecretCertName K))
             = ok true).
Proof.
  intros Hinst Hcm. unfold pass. walk r w H. norm.
  unfold ok in Hinst. rewrite Hinst in H.
  repeat advance H
    ltac:(rewrite ?Hcm in *;
          split_answer (ValidateCertPair w (OperatorNamespace K) (ManagerTLSSecretName K)
                          (ManagerSecretKeyName K) (ManagerSecretCertName K)))
    ltac:(fin_delegation throughFirstFailure_In)
    (fun t1 : list Event => ensured t1 = [] /\ rendered t1 = [] /\ applied t1 = []).
Qed.


Ltac fin_reach :=
  norm; intros; first [ discriminate | reflexivity | assumption ].

(** X12: a cluster without an Authentication resource is in order: when the read
    of it comes back not-found, the pass goes on to the key validator
    configuration, computed for no authentication. *)
Theorem absent_authentication_is_tolerated (r : ReconcileManager) (w : World)
    (e : error) :
  GetAuthentication w = (None, Some e) ->
  IsNotFound e = true ->
  reaches r w DAuthentication ->
  reaches r w DKeyValidatorConfig
  /\ forall cfg,
       In cfg (rendered (trace (pass r w))) ->
       GetKeyValidatorConfig w None (clusterDomain r) = ok (KeyValidatorConfig_ cfg).
Proof.
  intros Hauth Hnf Hreach. split.
  - unfold reaches in *. revert Hreach. walk r w H. norm. rewrite Hauth in H.
    repeat (try solve [intros _; reflexivity];
            advance H ltac:(rewrite ?Hnf in *) fin_reach
              (fun t1 : list Event =>
                 fetched DAuthentication t1 = false
                 /\ fetched DKeyValidatorConfig t1 = false)).
  - clear Hreach. intros cfg. unfold pass. walk r w H. norm. rewrite Hauth in H.
    repeat advance H ltac:(rewrite ?Hnf in *) fin_config
      (fun t1 : list Event => rendered t1 = []).
Qed.

Ltac fin_waits :=
  norm; intros;
  first
    [ discriminate
    | match goal with
      | Heq : [_] = [_] |- _ => injection Heq as <- <-
      end;
      cbn [In]; repeat first [ left; reflexivity | right ] ].

(** X13: the ways a pass ends degraded without returning an error, each a wait
    for something that is expected to appear: these, and no others, leave
    the requeue to the watches (or, at the license gate, to the timer). *)
Theorem waits_without_error (r : ReconcileManager) (w : World) (reason msg : string) :
  err (outcome (pass r w)) = None ->
  degradations (trace (pass r w)) = [(reason, msg)] ->
  In reason
    ["Waiting for Tigera API server to be ready";
     "Waiting for LicenseKeyAPI to be ready";
     "License not found";
     "Error querying license";
     "Compliance is not ready";
     "Waiting for secret '" +++ ComplianceServerCertSecret K +++ "' to become available";
     "Elasticsearch cluster configuration is not available, waiting for it to become available";
     "Elasticsearch secrets are not available yet, waiting until they become available";
     "Failed to check for the existence of management-cluster-connection secret";
     "Waiting for secret " +++ ManagerInternalTLSSecretName K
       +++ " in namespace " +++ OperatorNamespace K +++ " to be available";
     "Authentication is not ready";
     "Waiting for secret '" +++ PacketCaptureCertSecret K +++ "' to become available"].
Proof.
  unfold pass. walk r w H. norm.
  repeat advance H idtac fin_waits quiet.
Qed.

(** X14: on a management cluster the tunnel secret is needed: when reading it
    fails, with whatever error, nothing is rendered or applied; the pass
    that gets there sets the status degraded with the error's text and
    returns no error. *)
Theorem tunnel_secret_error_waits (r : ReconcileManager) (w : World)
    (mc : ManagementCluster) (e : error) (d0 : option (string * string)) :
  GetManagementCluster w = ok (Some mc) ->
  client_Get_Secret w (VoltronTunnelSecretName K) (OperatorNamespace K) = failed e ->
  rendered (trace (pass r w)) = []
  /\ applied (trace (pass r w)) = []
  /\ (reaches r w DManagementClusterConnection ->
      GetManagementClusterConnection w = ok None ->
      degradedAfter d0 (trace (pass r w))
      = Some ("Failed to check for the existence of management-cluster-connection secret",
              Error e)
      /\ outcome (pass r w) = mkOutcome Result_zero None).
Proof.
  intros Hmc Htunnel. unfold reaches, pass. walk r w H. norm.
  unfold ok, failed in *. rewrite Hmc, ?Htunnel in H.
  repeat advance H ltac:(rewrite ?Htunnel in *) fin_default
    (fun t1 => quiet t1 /\ fetched DManagementClusterConnection t1 = false).
Qed.
(** The secrets a pass reads by name are all in the operator namespace, and
    are among these seven. *)
Lemma secrets_read_by_a_pass (r : ReconcileManager) (w : World) (name namespace : string) :
  In (name, namespace) (secretsRead (trace (pass r w))) ->
  namespace = OperatorNamespace K
  /\ In name [ManagerTLSSecretName K; ComplianceServerCertSecret K;
              KibanaPublicCertSecret K; VoltronTunnelSecretName K;
              ManagerInternalTLSSecretName K; PacketCaptureCertSecret K;
              PrometheusTLSSecretName K].
Proof.
  unfold pass. walk r w H. norm.
  repeat advance H
    ltac:(cbn [secretsRead]; rewrite ?secretsRead_map_Apply_app)
    ltac:(norm; rewrite ?secretsRead_map_Apply_app; cbn [secretsRead]; intros;
          match goal with Hin : In _ _ |- _ => in_cases Hin end;
          (split; [reflexivity|]); cbn [In]; repeat first [ left; reflexivity | right ])
    (fun t1 : list Event => forall t2, secretsRead (t1 ++ t2) = secretsRead t2).
Qed.
Ltac fin_ways :=
  norm;
  first
    [ left; reflexivity
    | right; left; do 2 eexists; repeat split; reflexivity
    | right; right; eexists; (split; [reflexivity|]); repeat split;
      first [ reflexivity | symmetry; eassumption | eassumption ] ].

(** X22: a pass ends in one of three ways.  The Manager resource is absent, and
    nothing is done.  Or one check stopped it: [SetDegraded] was called,
    once, the degraded condition was not cleared and no status was written.
    Or it went through: no degraded condition was set, it was cleared, no
    requeue is asked for, and the Manager as it was read, with its status
    state set to Ready, is written to the status sub-resource when the
    status manager reports available, the error of that write being the
    error of the pass; it is not written otherwise, and the pass returns
    nil. *)
Theorem pass_ends_in_one_of_three_ways (r : ReconcileManager) (w : World) :
  pass r w = mkRun [Fetch DManager; OnCRNotFound] (mkOutcome Result_zero None)
  \/ (exists reason msg,
        degradations (trace (pass r w)) = [(reason, msg)]
        /\ cleared (trace (pass r w)) = false
        /\ statusWrites (trace (pass r w)) = [])
  \/ (exists instance,
        GetManager w = ok instance
        /\ degradations (trace (pass r w)) = []
        /\ cleared (trace (pass r w)) = true
        /\ res (outcome (pass r w)) = Result_zero
        /\ if IsAvailable w
           then statusWrites (trace (pass r w))
                = [mkManager (Spec instance) (mkManagerStatus (TigeraStatusReady K))]
                /\ err (outcome (pass r w))
                   = Status_Update w
                       (mkManager (Spec instance) (mkManagerStatus (TigeraStatusReady K)))
           else statusWrites (trace (pass r w)) = []
                /\ err (outcome (pass r w)) = None).
Proof.
  unfold pass. walk r w H. norm.
  repeat advance H idtac fin_ways quiet.
Qed.

End Controller.

(** * Setting the controller up

    [Add], [newReconciler] and [add]: the controller is created and its
    watches are registered one after the other, with an early return at the
    first registration that fails. *)

(** A Go [error] value with the wrapping [fmt.Errorf] does: an error handed
    over by a library, an error built by [fmt.Errorf] with a [%w] verb, which
    records the error passed for it, or one built without, which records
    none. *)
Inductive goerror : Type :=
| Opaque (e : error)
| Wrapping (text : string) (cause : goerror)
| Formatted (text : string).

(** [err.Error()]. *)
Definition goerror_Error (g : goerror) : string :=
  match g with
  | Opaque e => Error e
  | Wrapping text _ => text
  | Formatted text => text
  end.

(** [errors.Unwrap]. *)
Definition errors_Unwrap (g : goerror) : option goerror :=
  match g with
  | Wrapping _ cause => Some cause
  | Opaque _ | Formatted _ => None
  end.

(** [fmt.Errorf(format + "%w", err)] and [fmt.Errorf(format + "%v", err)],
    the other verbs of the format already filled in. *)
Definition fmt_Errorf_w (format : string) (err : goerror) : goerror :=
  Wrapping (format +++ goerror_Error err) err.
Definition fmt_Errorf_v (format : string) (err : goerror) : goerror :=
  Formatted (format +++ goerror_Error err).

(** Names of other packages that only [add] uses. *)
Record WatchNames : Type := mkWatchNames
  { PublicCertSecret : string;
    DexCertSecretName : string;
    StaticWellKnownJWKSConfigMapName : string;
    ClusterConfigConfigMapName : string;
    ECKLicenseConfigMapName : string;
    ECKOperatorNamespace : string }.

(** [options.AddOptions]: the fields [Add] and [newReconciler] read. *)
Record AddOptions : Type := mkAddOptions
  { EnterpriseCRDExists : bool;
    DetectedProvider : string;
    ClusterDomain_ : string;
    KubernetesVersion : string }.

(** What a watch is registered on. *)
Inductive Watched : Type :=
| KindManager
| APIServerWatch
| ComplianceWatch
| SecretsWatch (name namespace : string)
| ConfigMapWatch (name namespace : string)
| NetworkWatch
| ImageSetWatch
| NamespaceWatch (name : string)
| KindManagementCluster
| KindManagementClusterConnection
| KindAuthentication.

(** The calls made while setting up. *)
Inductive SetupCall : Type :=
| status_New (component version : string)
| status_Run
| controller_New (name : string) (reconciler : ReconcileManager)
| kubernetes_NewForConfig
| go_WaitToAddLicenseKeyWatch
| Watch (what : Watched).

(** The answers the controller runtime gives during set-up. *)
Record SetupWorld : Type := mkSetupWorld
  { controller_New_err : option error;
    NewForConfig_err : option error;
    Watch_err : Watched -> option error }.

Section Setup.

Variable K : Constants.
Variable N : WatchNames.

(** What [IsReady] answers on a [utils.ReadyFlag] nobody has marked yet. *)
Variable ReadyFlag_zero : bool.

(** A set-up computation: the calls made, and the value it continues with
    or the error it returned. *)
Definition Setup (A : Type) : Type := (list SetupCall * (A + goerror))%type.

Definition sret {A : Type} (a : A) : Setup A := ([], inl a).
Definition sfail {A : Type} (g : goerror) : Setup A := ([], inr g).
Definition scall (c : SetupCall) : Setup unit := ([c], inl tt).

Definition sbind {A B : Type} (m : Setup A) (k : A -> Setup B) : Setup B :=
  match m with
  | (t, inl a) => let (t', x) := k a in (t ++ t', x)
  | (t, inr g) => (t, inr g)
  end.

Notation "x <- m ;; k" := (sbind m (fun x => k))
  (at level 61, m at next level, right associativity).
Notation "m ;; k" := (sbind m (fun _ => k))
  (at level 61, right associativity).

(** [for _, x := range xs { body }] with a body that may return. *)
Fixpoint forEach {A : Type} (xs : list A) (body : A -> Setup unit) : Setup unit :=
  match xs with
  | [] => sret tt
  | x :: xs' => body x ;; forEach xs' body
  end.

(** One registration: [if err = register(); err != nil { return wrap(err) }]. *)
Definition watchOr (w : SetupWorld) (what : Watched) (wrap : goerror -> goerror)
  : Setup unit :=
  scall (Watch what) ;;
  match Watch_err w what with
  | Some err => sfail (wrap (Opaque err))
  | None => sret tt
  end.

(** The secrets watched in each of the two namespaces. *)
Definition watchedSecrets : list string :=
  [ManagerTLSSecretName K; PublicCertSecret N;
   ElasticsearchManagerUserSecret K; KibanaPublicCertSecret K;
   VoltronTunnelSecretName K; ComplianceServerCertSecret K; PacketCaptureCertSecret K;
   ManagerInternalTLSSecretName K; DexCertSecretName N; PrometheusTLSSecretName K].

(** ** [add] *)

Definition add (w : SetupWorld) : Setup unit :=
  (* Watch for changes to primary resource Manager *)
  watchOr w KindManager
    (fmt_Errorf_w "manager-controller failed to watch primary resource: ") ;;
  watchOr w APIServerWatch
    (fmt_Errorf_w "manager-controller failed to watch APIServer resource: ") ;;
  watchOr w ComplianceWatch
    (fmt_Errorf_w "manager-controller failed to watch compliance resource: ") ;;
  (* Watch the given secrets in each both the manager and operator namespaces *)
  forEach [OperatorNamespace K; ManagerNamespace K] (fun namespace =>
    forEach watchedSecrets (fun secretName =>
      watchOr w (SecretsWatch secretName namespace)
        (fmt_Errorf_w ("manager-controller failed to watch the secret '" +++ secretName
                       +++ "' in '" +++ namespace +++ "' namespace: ")))) ;;
  (* This may or may not exist *)
  watchOr w (ConfigMapWatch (StaticWellKnownJWKSConfigMapName N) (OperatorNamespace K))
    (fmt_Errorf_w ("manager-controller failed to watch ConfigMap resource "
                   +++ StaticWellKnownJWKSConfigMapName N +++ ": ")) ;;
  watchOr w (ConfigMapWatch (ClusterConfigConfigMapName N) (OperatorNamespace K))
    (fmt_Errorf_w "compliance-controller failed to watch the ConfigMap resource: ") ;;
  watchOr w NetworkWatch
    (fmt_Errorf_w "manager-controller failed to watch Network resource: ") ;;
  watchOr w ImageSetWatch
    (fmt_Errorf_w "manager-controller failed to watch ImageSet: ") ;;
  watchOr w (NamespaceWatch (TigeraPrometheusNamespace K))
    (fmt_Errorf_w ("manager-controller failed to watch the '"
                   +++ TigeraPrometheusNamespace K +++ "' namespace: ")) ;;
  (* Watch for changes to primary resource ManagementCluster *)
  watchOr w KindManagementCluster
    (fmt_Errorf_w "manager-controller failed to watch primary resource: ") ;;
  (* Watch for changes to primary resource ManagementClusterConnection *)
  watchOr w KindManagementClusterConnection
    (fmt_Errorf_w "manager-controller failed to watch primary resource: ") ;;
  watchOr w KindAuthentication
    (fmt_Errorf_w "manager-controller failed to watch resource: ") ;;
  watchOr w (ConfigMapWatch (ECKLicenseConfigMapName N) (ECKOperatorNamespace N))
    (fmt_Errorf_v "manager-controller failed to watch the ConfigMap resource: ") ;;
  sret tt.

(** ** [newReconciler] *)

Definition newReconciler (opts : AddOptions) (licenseAPIReady : bool)
  : Setup ReconcileManager :=
  scall (status_New "manager" (KubernetesVersion opts)) ;;
  let c := {| provider := DetectedProvider opts;
              clusterDomain := ClusterDomain_ opts;
              licenseAPIReady := licenseAPIReady |} in
  scall status_Run ;;
  sret c.

(** ** [Add] *)

Definition Add (w : SetupWorld) (opts : AddOptions) : Setup unit :=
  if negb (EnterpriseCRDExists opts) then
    (* No need to start this controller. *)
    sret tt
  else
    let licenseAPIReady := ReadyFlag_zero in
    (* create the reconciler *)
    reconciler <- newReconciler opts licenseAPIReady ;;
    (* Create a new controller *)
    scall (controller_New "cmanager-controller" reconciler) ;;
    match controller_New_err w with
    | Some err => sfail (fmt_Errorf_w "failed to create manager-controller: " (Opaque err))
    | None => sret tt
    end ;;
    scall kubernetes_NewForConfig ;;
    match NewForConfig_err w with
    | Some err => sfail (Opaque err)
    | None => sret tt
    end ;;
    scall go_WaitToAddLicenseKeyWatch ;;
    add w.

(** ** Reading the calls of a set-up *)

(** The watches asked for, in order. *)
Fixpoint watches (t : list SetupCall) : list Watched :=
  match t with
  | [] => []
  | Watch what :: t' => what :: watches t'
  | _ :: t' => watches t'
  end.

(** Every watch [add] is written to register, in program order. *)
Definition addWatches : list Watched :=
  [KindManager; APIServerWatch; ComplianceWatch]
  ++ flat_map (fun namespace => map (fun name => SecretsWatch name namespace) watchedSecrets)
       [OperatorNamespace K; ManagerNamespace K]
  ++ [ConfigMapWatch (StaticWellKnownJWKSConfigMapName N) (OperatorNamespace K);
      ConfigMapWatch (ClusterConfigConfigMapName N) (OperatorNamespace K);
      NetworkWatch; ImageSetWatch; NamespaceWatch (TigeraPrometheusNamespace K);
      KindManagementCluster; KindManagementClusterConnection; KindAuthentication;
      ConfigMapWatch (ECKLicenseConfigMapName N) (ECKOperatorNamespace N)].

(** The watches of [ws] up to and including the first that fails. *)
Fixpoint throughFirstRefusal (w : SetupWorld) (ws : list Watched) : list Watched :=
  match ws with
  | [] => []
  | x :: ws' =>
      match Watch_err w x with
      | Some _ => [x]
      | None => x :: throughFirstRefusal w ws'
      end
  end.

(** The first watch of [ws] that fails, and its error. *)
Fixpoint firstRefusal (w : SetupWorld) (ws : list Watched) : option (Watched * error) :=
  match ws with
  | [] => None
  | x :: ws' =>
      match Watch_err w x with
      | Some e => Some (x, e)
      | None => firstRefusal w ws'
      end
  end.

(** ** How registrations compose *)

(** [m] behaves as the registration, one after the other, of the watches
    [ws]: it asks for them in order up to and including the first that is
    refused, makes no other call, and returns nil when none is refused, or
    else an error that stands in relation [P] to the refused watch and the
    error it was refused with. *)
Definition registers (w : SetupWorld) (P : Watched -> error -> goerror -> Prop)
    (m : Setup unit) (ws : list Watched) : Prop :=
  fst m = map Watch (throughFirstRefusal w ws)
  /\ match firstRefusal w ws with
     | Some (x, e) => exists g, snd m = inr g /\ P x e g
     | None => snd m = inl tt
     end.

Lemma registers_ret (w : SetupWorld) (P : Watched -> error -> goerror -> Prop) :
  registers w P (sret tt) [].
Proof. split; reflexivity. Qed.

Lemma registers_watchOr (w : SetupWorld) (P : Watched -> error -> goerror -> Prop)
    (x : Watched) (wrap : goerror -> goerror) :
  (forall e, Watch_err w x = Some e -> P x e (wrap (Opaque e))) ->
  registers w P (watchOr w x wrap) [x].
Proof.
  intros HP. unfold registers, watchOr. cbn.
  destruct (Watch_err w x) as [e|] eqn:Hx; cbn; split; eauto.
Qed.

Lemma registers_seq (w : SetupWorld) (P : Watched -> error -> goerror -> Prop)
    (m1 m2 : Setup unit) (ws1 ws2 : list Watched) :
  registers w P m1 ws1 -> registers w P m2 ws2 ->
  registers w P (m1 ;; m2) (ws1 ++ ws2).
Proof.
  unfold registers. destruct m1 as [t1 [[]|g1]], m2 as [t2 r2]; cbn [fst snd sbind].
  - intros [-> H1] [-> H2]. revert H1.
    induction ws1 as [|x ws1 IH]; cbn [app throughFirstRefusal firstRefusal map].
    + intros _. split; [reflexivity|exact H2].
    + destruct (Watch_err w x) as [e|].
      * intros (g & Hg & _). discriminate.
      * intros H1. destruct (IH H1) as [IHt IHr]. split; [|exact IHr].
        cbn [app map]. f_equal. exact IHt.
  - intros [-> H1] _. revert H1.
    induction ws1 as [|x ws1 IH]; cbn [app throughFirstRefusal firstRefusal map].
    + discriminate.
    + destruct (Watch_err w x) as [e|].
      * intros H1. split; [reflexivity|exact H1].
      * intros H1. destruct (IH H1) as [IHt IHr]. split; [|exact IHr].
        cbn [map]. f_equal. exact IHt.
Qed.

Lemma registers_forEach {A : Type} (w : SetupWorld)
    (P : Watched -> error -> goerror -> Prop)
    (xs : list A) (body : A -> Setup unit) (f : A -> list Watched) :
  (forall x, registers w P (body x) (f x)) ->
  registers w P (forEach xs body) (flat_map f xs).
Proof.
  intros Hbody. induction xs as [|x xs IH]; cbn [forEach flat_map].
  - apply registers_ret.
  - apply registers_seq; [apply Hbody|exact IH].
Qed.

Lemma registers_cons (w : SetupWorld) (P : Watched -> error -> goerror -> Prop)
    (x : Watched) (wrap : goerror -> goerror) (m : Setup unit) (ws : list Watched) :
  (forall e, Watch_err w x = Some e -> P x e (wrap (Opaque e))) ->
  registers w P m ws ->
  registers w P (watchOr w x wrap ;; m) (x :: ws).
Proof.
  intros HP Hm. apply (registers_seq w P _ _ [x] ws); [|exact Hm].
  apply registers_watchOr. exact HP.
Qed.

Lemma registers_forEach_map {A : Type} (w : SetupWorld)
    (P : Watched -> error -> goerror -> Prop)
    (xs : list A) (body : A -> Setup unit) (f : A -> Watched) :
  (forall x, registers w P (body x) [f x]) ->
  registers w P (forEach xs body) (map f xs).
Proof.
  intros Hbody. induction xs as [|x xs IH]; cbn [forEach map].
  - apply registers_ret.
  - apply (registers_seq w P _ _ [f x] (map f xs)); [apply Hbody|exact IH].
Qed.

Lemma firstRefusal_None (w : SetupWorld) (ws : list Watched) :
  firstRefusal w ws = None <-> Forall (fun x => Watch_err w x = None) ws.
Proof.
  induction ws as [|x ws IH]; cbn.
  - split; [constructor|reflexivity].
  - destruct (Watch_err w x) as [e|] eqn:Hx.
    + split; [discriminate|]. intros Hall. inversion Hall; congruence.
    + rewrite IH. split; [constructor; assumption|]. intros Hall. inversion Hall; assumption.
Qed.

Lemma watches_map_Watch (ws : list Watched) : watches (map Watch ws) = ws.
Proof. induction ws as [|x ws IH]; cbn; congruence. Qed.

(** The error of [add] for a refused watch: its text ends with the text of
    the error the watch was refused with, and that error is what it wraps,
    except for the last registration, whose error is formatted without
    wrapping. *)
Definition addError (x : Watched) (e : error) (g : goerror) : Prop :=
  (exists format, goerror_Error g = format +++ Error e)
  /\ (errors_Unwrap g = Some (Opaque e)
      \/ (x = ConfigMapWatch (ECKLicenseConfigMapName N) (ECKOperatorNamespace N)
          /\ errors_Unwrap g = None)).

Lemma add_registers (w : SetupWorld) : registers w addError (add w) addWatches.
Proof.
  unfold add, addWatches. cbn [app].
  repeat lazymatch goal with
    | |- registers _ _ (sret tt) _ => apply registers_ret
    | |- registers _ _ (sbind (watchOr _ _ _) _) _ => apply registers_cons
    | |- registers _ _ (sbind (forEach _ _) _) _ => apply registers_seq
    | |- registers _ _ (forEach _ _) (flat_map _ _) => apply registers_forEach; intros ?
    | |- registers _ _ (forEach _ _) (map _ _) => apply registers_forEach_map; intros ?
    | |- registers _ _ (watchOr _ _ _) _ => apply registers_watchOr
    | |- forall e, Watch_err _ _ = Some e -> addError _ _ _ =>
        intros ? _; split;
        [ eexists; reflexivity
        | first [ left; reflexivity | right; split; reflexivity ] ]
    end.
Qed.

Lemma firstRefusal_split (w : SetupWorld) (ws : list Watched) (x : Watched) (e : error) :
  firstRefusal w ws = Some (x, e) ->
  exists before after,
    ws = before ++ x :: after
    /\ Forall (fun y => Watch_err w y = None) before
    /\ Watch_err w x = Some e
    /\ throughFirstRefusal w ws = before ++ [x].
Proof.
  induction ws as [|y ws IH]; cbn; [discriminate|].
  destruct (Watch_err w y) as [e'|] eqn:Hy.
  - intros [= <- <-]. exists [], ws. repeat split; auto.
  - intros H. destruct (IH H) as (before & after & -> & Hall & Hx & ->).
    exists (y :: before), after. repeat split; auto.
Qed.

Lemma throughFirstRefusal_all (w : SetupWorld) (ws : list Watched) :
  firstRefusal w ws = None -> throughFirstRefusal w ws = ws.
Proof.
  induction ws as [|y ws IH]; cbn; [reflexivity|].
  destruct (Watch_err w y); [discriminate|]. intros H. rewrite (IH H). reflexivity.
Qed.

(** ** Properties of the set-up *)

(** X15: [add] asks for the watches of [addWatches], thirty-two in all, in that
    order, and makes no other call.  It stops at the first one that is
    refused: the watches before it were all granted, none after it is asked
    for, and an error is returned.  When none is refused it asks for all of
    them and returns nil. *)
Theorem add_registers_until_first_refusal (w : SetupWorld) :
  fst (add w) = map Watch (watches (fst (add w)))
  /\ length addWatches = 32
  /\ match firstRefusal w addWatches with
     | Some (x, e) =>
         exists before after g,
           addWatches = before ++ x :: after
           /\ Forall (fun y => Watch_err w y = None) before
           /\ Watch_err w x = Some e
           /\ watches (fst (add w)) = before ++ [x]
           /\ snd (add w) = inr g
     | None =>
         Forall (fun y => Watch_err w y = None) addWatches
         /\ watches (fst (add w)) = addWatches
         /\ snd (add w) = inl tt
     end.
Proof.
  destruct (add_registers w) as [Ht Hr]. rewrite Ht, watches_map_Watch.
  split; [reflexivity|]. split; [reflexivity|].
  destruct (firstRefusal w addWatches) as [[x e]|] eqn:Hf.
  - destruct Hr as (g & Hg & _).
    destruct (firstRefusal_split _ _ _ _ Hf) as (before & after & Heq & Hall & Hx & Hthrough).
    exists before, after, g. auto.
  - split; [apply firstRefusal_None; exact Hf|].
    split; [apply throughFirstRefusal_all; exact Hf|exact Hr].
Qed.

(** X16: an error of [add] comes from the one watch that was refused, the last
    it asked for: its text is a description followed by the text of the
    error the watch was refused with, and that error is what it wraps
    ([errors.Unwrap] gives it back), except for the last registration, the
    ECK license ConfigMap, whose error is formatted with [%v] and wraps
    nothing. *)
Theorem add_error_wraps_the_refusal (w : SetupWorld) (g : goerror) :
  snd (add w) = inr g ->
  exists x e before,
    watches (fst (add w)) = before ++ [x]
    /\ Watch_err w x = Some e
    /\ (exists format, goerror_Error g = format +++ Error e)
    /\ (errors_Unwrap g = Some (Opaque e)
        \/ (x = ConfigMapWatch (ECKLicenseConfigMapName N) (ECKOperatorNamespace N)
            /\ errors_Unwrap g = None)).
Proof.
  intros Hg. destruct (add_registers w) as [Ht Hr]. rewrite Ht, watches_map_Watch.
  destruct (firstRefusal w addWatches) as [[x e]|] eqn:Hf.
  - destruct Hr as (g' & Hg' & Hformat & Hunwrap).
    assert (g' = g) by congruence. subst g'.
    destruct (firstRefusal_split _ _ _ _ Hf) as (before & after & _ & _ & Hx & Hthrough).
    exists x, e, before. auto.
  - congruence.
Qed.

(** The calls [Add] makes before it hands over to [add]. *)
Definition creation (opts : AddOptions) : list SetupCall :=
  [status_New "manager" (KubernetesVersion opts);
   status_Run;
   controller_New "cmanager-controller"
     {| provider := DetectedProvider opts;
        clusterDomain := ClusterDomain_ opts;
        licenseAPIReady := ReadyFlag_zero |};
   kubernetes_NewForConfig;
   go_WaitToAddLicenseKeyWatch].

Lemma Add_cases (w : SetupWorld) (opts : AddOptions) :
  Add w opts =
  if negb (EnterpriseCRDExists opts) then ([], inl tt)
  else match controller_New_err w with
       | Some e =>
           (firstn 3 (creation opts),
            inr (fmt_Errorf_w "failed to create manager-controller: " (Opaque e)))
       | None =>
           match NewForConfig_err w with
           | Some e => (firstn 4 (creation opts), inr (Opaque e))
           | None => (creation opts ++ fst (add w), snd (add w))
           end
       end.
Proof.
  unfold Add, newReconciler.
  destruct (EnterpriseCRDExists opts); cbn [negb]; [|reflexivity].
  cbn [sbind scall sret app].
  destruct (controller_New_err w); [reflexivity|].
  destruct (NewForConfig_err w); [reflexivity|].
  cbn [sbind scall sret sfail app]. destruct (add w) as [t x]. reflexivity.
Qed.

(** X17: [Add] registers a watch only after everything else is in place: the
    enterprise CRD exists, the status manager was created and started, the
    controller and the Kubernetes client were created without error, and
    the wait for the license API was started.  Up to the first watch it has
    made exactly those calls, in that order, and watches since. *)
Theorem Add_watches_only_after_creation (w : SetupWorld) (opts : AddOptions)
    (pre post : list SetupCall) (x : Watched) :
  fst (Add w opts) = pre ++ Watch x :: post ->
  EnterpriseCRDExists opts = true
  /\ controller_New_err w = None
  /\ NewForConfig_err w = None
  /\ exists before, pre = creation opts ++ map Watch before.
Proof.
  rewrite Add_cases.
  assert (Hshort : forall n, n <= 4 ->
            firstn n (creation opts) = pre ++ Watch x :: post -> False).
  { intros n Hn Heq.
    assert (Hin : In (Watch x) (firstn n (creation opts)))
      by (rewrite Heq; apply in_or_app; right; left; reflexivity).
    do 5 (destruct n as [|n]; [cbn in Hin; intuition discriminate|]).
    repeat apply le_S_n in Hn. inversion Hn. }
  destruct (EnterpriseCRDExists opts); cbn [negb fst].
  2:{ intros Heq. destruct pre; discriminate. }
  destruct (controller_New_err w) as [e|].
  { cbn [fst]. intros Heq. destruct (Hshort 3 ltac:(repeat constructor) Heq). }
  destruct (NewForConfig_err w) as [e|].
  { cbn [fst]. intros Heq. destruct (Hshort 4 ltac:(repeat constructor) Heq). }
  cbn [fst]. destruct (add_registers w) as [-> _].
  generalize (throughFirstRefusal w addWatches). intros l Heq.
  repeat split.
  unfold creation in *.
  do 5 (destruct pre as [|? pre]; [discriminate|]; injection Heq as <- Heq).
  apply map_eq_app in Heq.
  destruct Heq as (before & rest & _ & Hbefore & _).
  exists before. cbn [app]. rewrite Hbefore. reflexivity.
Qed.

(** X18: [Add] returns nil in two cases only: the enterprise CRD does not exist,
    and then it has done nothing at all; or the controller and the client
    were created and every watch was granted.  When creating the controller
    fails the error is wrapped, when creating the client fails it is
    returned as it is; in both cases the status manager has already been
    started, and no watch is registered. *)
Theorem Add_succeeds_iff (w : SetupWorld) (opts : AddOptions) :
  (snd (Add w opts) = inl tt <->
   EnterpriseCRDExists opts = false
   \/ (controller_New_err w = None /\ NewForConfig_err w = None
       /\ Forall (fun x => Watch_err w x = None) addWatches))
  /\ (EnterpriseCRDExists opts = false -> fst (Add w opts) = [])
  /\ (EnterpriseCRDExists opts = true ->
      In status_Run (fst (Add w opts))
      /\ (forall e, controller_New_err w = Some e ->
            watches (fst (Add w opts)) = []
            /\ snd (Add w opts)
               = inr (Wrapping ("failed to create manager-controller: " +++ Error e)
                               (Opaque e)))
      /\ (forall e, controller_New_err w = None -> NewForConfig_err w = Some e ->
            watches (fst (Add w opts)) = []
            /\ snd (Add w opts) = inr (Opaque e))).
Proof.
  rewrite Add_cases.
  pose proof (add_registers w) as [Ht Hr].
  pose proof (firstRefusal_None w addWatches) as Hnone.
  destruct (EnterpriseCRDExists opts); cbn [negb fst snd].
  - split; [|split; [discriminate|intros _]].
    + destruct (controller_New_err w) as [e|]; cbn [snd].
      { split; [discriminate|]. intros [|[? _]]; discriminate. }
      destruct (NewForConfig_err w) as [e|]; cbn [snd].
      { split; [discriminate|]. intros [|(_ & ? & _)]; discriminate. }
      destruct (firstRefusal w addWatches) as [[x e]|].
      * destruct Hr as (g & -> & _). split; [discriminate|].
        intros [|(_ & _ & Hall)]; [discriminate|].
        apply Hnone in Hall. discriminate.
      * split; [|intros _; exact Hr]. intros _. right.
        repeat split. apply Hnone. reflexivity.
    + split; [|split].
      * destruct (controller_New_err w); [cbn; tauto|].
        destruct (NewForConfig_err w); cbn; tauto.
      * intros e ->. cbn. split; reflexivity.
      * intros e -> ->. cbn. split; reflexivity.
  - split; [|split; [reflexivity|discriminate]].
    split; [left; reflexivity|reflexivity].
Qed.

End Setup.

(** * The watches and the pass together *)

Section Coverage.

Context {LicenseKey ProductVariant ManagementCluster ManagementClusterConnection
         KeyValidatorConfig ClusterConfig ElasticsearchLicenseType Rendered : Type}.

Variable ElasticsearchLicenseType_zero : ElasticsearchLicenseType.
Variable K : Constants.
Variable N : WatchNames.
Variable GetServiceDNSNames : string -> string -> string -> list string.
Variable IsCertOperatorIssued : option Blob -> result bool.
Variable IsFeatureActive : LicenseKey -> string -> bool.
Variable strconv_Quote : string -> string.

(** X19: every secret a pass reads by name is one [add] has put a watch on, in
    the namespace the pass reads it from: once [add] has returned nil, a
    change to any secret a pass depends on starts a new pass. *)
Theorem secrets_read_are_watched (r : ReconcileManager)
    (w : @World LicenseKey ProductVariant ManagementCluster ManagementClusterConnection
                KeyValidatorConfig ClusterConfig ElasticsearchLicenseType Rendered)
    (sw : SetupWorld) (name namespace : string) :
  snd (add K N sw) = inl tt ->
  In (name, namespace)
     (secretsRead
        (trace (pass ElasticsearchLicenseType_zero K GetServiceDNSNames
                  IsCertOperatorIssued IsFeatureActive strconv_Quote r w))) ->
  In (Watch (SecretsWatch name namespace)) (fst (add K N sw)).
Proof.
  intros Hok Hin. apply secrets_read_by_a_pass in Hin. destruct Hin as [-> Hname].
  destruct (add_registers K N sw) as [Ht Hr]. rewrite Ht. apply in_map.
  destruct (firstRefusal sw (addWatches K N)) as [[x e]|] eqn:Hf.
  - destruct Hr as (g & Hg & _). congruence.
  - rewrite (throughFirstRefusal_all _ _ Hf).
    cbn [In] in Hname.
    repeat match type of Hname with
           | _ \/ _ => destruct Hname as [Hname|Hname]
           end;
      first [ contradiction | subst name ];
      unfold addWatches, watchedSecrets; cbn [app flat_map map In];
      repeat first [ left; reflexivity | right ].
Qed.

End Coverage.

(** * Deep copies of the Core API types

    [pkg/apis/operator/v1alpha1/zz_generated.deepcopy.go].  A receiver that
    may be nil is an [option]; the struct a pointer [out] points to is passed
    in and handed back.  The backing arrays of slices live in a store, so
    that two slices over the same array can be told from two slices over
    equal arrays. *)

Section DeepCopy.

(** The field types, owned by other packages, with their zero values. *)
Context {TypeMeta ObjectMeta ListMeta CoreSpec CoreStatus : Type}.

Variable TypeMeta_zero : TypeMeta.
Variable ObjectMeta_zero : ObjectMeta.
Variable CoreSpec_zero : CoreSpec.
Variable CoreStatus_zero : CoreStatus.

(** [metav1.ObjectMeta.DeepCopyInto]: from the receiver and what [out]
    points to, what [out] points to afterwards. *)
Variable ObjectMeta_DeepCopyInto : ObjectMeta -> ObjectMeta -> ObjectMeta.

Record Core : Type := mkCore
  { Core_TypeMeta : TypeMeta;
    Core_ObjectMeta : ObjectMeta;
    Core_Spec : CoreSpec;
    Core_Status : CoreStatus }.

(** What [new(Core)] points to. *)
Definition Core_zero : Core :=
  mkCore TypeMeta_zero ObjectMeta_zero CoreSpec_zero CoreStatus_zero.

(** A slice of [Core]: its backing array, where it starts in it, and its
    length. *)
Record Slice : Type := mkSlice { base : nat; offset : nat; len : nat }.

Record CoreList : Type := mkCoreList
  { List_TypeMeta : TypeMeta;
    List_ListMeta : ListMeta;
    Items : option Slice }.

(** The backing arrays allocated so far, by address. *)
Definition Arrays : Type := list (list Core).

Fixpoint update {A : Type} (l : list A) (i : nat) (v : A) : list A :=
  match l, i with
  | [], _ => []
  | _ :: l', O => v :: l'
  | x :: l', S i' => x :: update l' i' v
  end.

(** [s[i]] and [s[i] = v], for [i] below the length of [s]. *)
Definition load (h : Arrays) (s : Slice) (i : nat) : Core :=
  nth (offset s + i) (nth (base s) h []) Core_zero.

Definition store (h : Arrays) (s : Slice) (i : nat) (v : Core) : Arrays :=
  update h (base s) (update (nth (base s) h []) (offset s + i) v).

(** [make([]Core, n)]: a new array of [n] zero values. *)
Definition make (n : nat) (h : Arrays) : Slice * Arrays :=
  (mkSlice (length h) 0 n, h ++ [repeat Core_zero n]).

(** ** [Core] *)

Definition Core_DeepCopyInto (in_ out : Core) : Core :=
  (* *out = *in *)
  let out := in_ in
  (* out.TypeMeta = in.TypeMeta *)
  let out := mkCore (Core_TypeMeta in_) (Core_ObjectMeta out) (Core_Spec out)
               (Core_Status out) in
  (* in.ObjectMeta.DeepCopyInto(&out.ObjectMeta) *)
  let out := mkCore (Core_TypeMeta out)
               (ObjectMeta_DeepCopyInto (Core_ObjectMeta in_) (Core_ObjectMeta out))
               (Core_Spec out) (Core_Status out) in
  (* out.Spec = in.Spec *)
  let out := mkCore (Core_TypeMeta out) (Core_ObjectMeta out) (Core_Spec in_)
               (Core_Status out) in
  (* out.Status = in.Status *)
  let out := mkCore (Core_TypeMeta out) (Core_ObjectMeta out) (Core_Spec out)
               (Core_Status in_) in
  out.

Definition Core_DeepCopy (in_ : option Core) : option Core :=
  match in_ with
  | None => None
  | Some c =>
      let out := Core_zero in
      let out := Core_DeepCopyInto c out in
      Some out
  end.

(** ** [CoreSpec] and [CoreStatus] *)

Definition CoreSpec_DeepCopyInto (in_ out : CoreSpec) : CoreSpec := in_.

Definition CoreSpec_DeepCopy (in_ : option CoreSpec) : option CoreSpec :=
  match in_ with
  | None => None
  | Some c =>
      let out := CoreSpec_zero in
      let out := CoreSpec_DeepCopyInto c out in
      Some out
  end.

Definition CoreStatus_DeepCopyInto (in_ out : CoreStatus) : CoreStatus := in_.

Definition CoreStatus_DeepCopy (in_ : option CoreStatus) : option CoreStatus :=
  match in_ with
  | None => None
  | Some c =>
      let out := CoreStatus_zero in
      let out := CoreStatus_DeepCopyInto c out in
      Some out
  end.

(** ** [CoreList] *)

(** The loop over the items of the source slice: item [i] of the source is
    deep-copied into item [i] of the destination. *)
Definition copyItems (src dst : Slice) (h : Arrays) : Arrays :=
  fold_left
    (fun h i => store h dst i (Core_DeepCopyInto (load h src i) (load h dst i)))
    (seq 0 (len src)) h.

Definition CoreList_DeepCopyInto (in_ out : CoreList) (h : Arrays) : CoreList * Arrays :=
  (* *out = *in *)
  let out := in_ in
  (* out.TypeMeta = in.TypeMeta *)
  let out := mkCoreList (List_TypeMeta in_) (List_ListMeta out) (Items out) in
  (* out.ListMeta = in.ListMeta *)
  let out := mkCoreList (List_TypeMeta out) (List_ListMeta in_) (Items out) in
  match Items in_ with
  | Some src =>
      (* the destination slice: make, of the length of the source *)
      let (dst, h) := make (len src) h in
      let out := mkCoreList (List_TypeMeta out) (List_ListMeta out) (Some dst) in
      (out, copyItems src dst h)
  | None => (out, h)
  end.

(** The zero [CoreList], with a nil slice. *)
Variable ListMeta_zero : ListMeta.
Definition CoreList_zero : CoreList := mkCoreList TypeMeta_zero ListMeta_zero None.

Definition CoreList_DeepCopy (in_ : option CoreList) (h : Arrays)
  : option CoreList * Arrays :=
  match in_ with
  | None => (None, h)
  | Some l =>
      let out := CoreList_zero in
      let (out, h) := CoreList_DeepCopyInto l out h in
      (Some out, h)
  end.

(** ** [DeepCopyObject] *)

(** A [runtime.Object] interface value: nil, or a pointer of one of the two
    kinds, which may itself be nil. *)
Inductive Object : Type :=
| CorePointer (p : option Core)
| CoreListPointer (p : option CoreList).

Definition Core_DeepCopyObject (in_ : option Core) : option Object :=
  match Core_DeepCopy in_ with
  | Some c => Some (CorePointer (Some c))
  | None => None
  end.

Definition CoreList_DeepCopyObject (in_ : option CoreList) (h : Arrays)
  : option Object * Arrays :=
  match CoreList_DeepCopy in_ h with
  | (Some c, h) => (Some (CoreListPointer (Some c)), h)
  | (None, h) => (None, h)
  end.

(** ** Lists under update *)

Lemma update_length {A : Type} (l : list A) (i : nat) (v : A) :
  length (update l i v) = length l.
Proof.
  revert i. induction l as [|x l IH]; intros [|i]; cbn; auto.
Qed.

Lemma nth_update_same {A : Type} (l : list A) (i : nat) (v d : A) :
  i < length l -> nth i (update l i v) d = v.
Proof.
  revert i. induction l as [|x l IH]; intros [|i] Hi; cbn in *;
    try (inversion Hi; fail); auto.
  apply IH. apply le_S_n. exact Hi.
Qed.

Lemma nth_update_other {A : Type} (l : list A) (i j : nat) (v d : A) :
  i <> j -> nth j (update l i v) d = nth j l d.
Proof.
  revert i j. induction l as [|x l IH]; intros [|i] [|j] Hne; cbn; auto.
  congruence.
Qed.

Lemma load_store_same (h : Arrays) (s : Slice) (i : nat) (v : Core) :
  base s < length h -> offset s + i < length (nth (base s) h []) ->
  load (store h s i v) s i = v.
Proof.
  intros Hb Hi. unfold load, store.
  rewrite nth_update_same by exact Hb. apply nth_update_same. exact Hi.
Qed.

Lemma load_store_other_index (h : Arrays) (s : Slice) (i j : nat) (v : Core) :
  base s < length h -> i <> j ->
  load (store h s i v) s j = load h s j.
Proof.
  intros Hb Hne. unfold load, store.
  rewrite nth_update_same by exact Hb. apply nth_update_other.
  lia.
Qed.

Lemma load_store_other_array (h : Arrays) (s s' : Slice) (i j : nat) (v : Core) :
  base s <> base s' ->
  load (store h s i v) s' j = load h s' j.
Proof.
  intros Hne. unfold load, store. rewrite nth_update_other by exact Hne. reflexivity.
Qed.

Lemma store_length (h : Arrays) (s : Slice) (i : nat) (v : Core) :
  length (store h s i v) = length h.
Proof. apply update_length. Qed.

Lemma store_array_length (h : Arrays) (s : Slice) (i : nat) (v : Core) (b : nat) :
  length (nth b (store h s i v) []) = length (nth b h []).
Proof.
  unfold store. destruct (Nat.eq_dec (base s) b) as [<-|Hne].
  - destruct (Nat.lt_ge_cases (base s) (length h)) as [Hb|Hb].
    + rewrite nth_update_same by exact Hb. apply update_length.
    + rewrite !nth_overflow; [reflexivity|exact Hb|rewrite update_length; exact Hb].
  - rewrite nth_update_other by exact Hne. reflexivity.
Qed.

Lemma store_other_array (h : Arrays) (s : Slice) (i : nat) (v : Core) (b : nat) :
  b <> base s -> nth b (store h s i v) [] = nth b h [].
Proof.
  intros Hne. unfold store. apply nth_update_other. congruence.
Qed.

(** The copying loop, run for the first [k] items: the destination holds
    their copies, whatever it held before, and no other array has changed. *)
Lemma copy_loop (src dst : Slice) (k : nat) (h : Arrays) :
  base src <> base dst ->
  base dst < length h ->
  offset dst + k <= length (nth (base dst) h []) ->
  let h' :=
    fold_left
      (fun h i => store h dst i (Core_DeepCopyInto (load h src i) (load h dst i)))
      (seq 0 k) h in
  length h' = length h
  /\ (forall b, b <> base dst -> nth b h' [] = nth b h [])
  /\ length (nth (base dst) h' []) = length (nth (base dst) h [])
  /\ (forall i, i < k -> load h' dst i = Core_DeepCopyInto (load h src i) Core_zero).
Proof.
  intros Hne Hb. induction k as [|k IH]; intros Hk h'; subst h'.
  - cbn. repeat split; auto. intros i Hi. inversion Hi.
  - rewrite seq_S, fold_left_app. cbn [fold_left Nat.add].
    assert (Hk' : offset dst + k <= length (nth (base dst) h [])) by lia.
    destruct (IH Hk') as (Hlen & Hother & Harr & Hcopied). clear IH.
    set (hk := fold_left _ (seq 0 k) h) in *.
    assert (Hsrc : forall j, load hk src j = load h src j).
    { intros j. unfold load. rewrite Hother by exact Hne. reflexivity. }
    split; [rewrite store_length; exact Hlen|].
    split; [intros b Hb'; rewrite store_other_array by exact Hb'; apply Hother; exact Hb'|].
    split; [rewrite store_array_length; exact Harr|].
    intros i Hi. destruct (Nat.eq_dec i k) as [->|Hik].
    + rewrite load_store_same by lia. rewrite Hsrc. reflexivity.
    + rewrite load_store_other_index by lia. apply Hcopied. lia.
Qed.

Lemma copyItems_spec (src dst : Slice) (h : Arrays) :
  base src <> base dst ->
  base dst < length h ->
  offset dst + len src <= length (nth (base dst) h []) ->
  length (copyItems src dst h) = length h
  /\ (forall b, b <> base dst -> nth b (copyItems src dst h) [] = nth b h [])
  /\ (forall i, i < len src ->
                load (copyItems src dst h) dst i
                = Core_DeepCopyInto (load h src i) Core_zero).
Proof.
  intros Hne Hb Hroom.
  destruct (copy_loop src dst (len src) h Hne Hb Hroom) as (Hl & Hother & _ & Hcopied).
  repeat split; assumption.
Qed.

(** ** Properties of the copies *)

(** X20: the deep copy of a list with items owns its items: it gets a slice of
    the same length over an array allocated for it, which holds the deep
    copies of the items; no array that existed is written to; and nothing
    stored later through the copy's slice can be seen through the
    original's. *)
Theorem CoreList_DeepCopyInto_copies_into_a_new_array (in_ out : CoreList)
    (h : Arrays) (src : Slice) :
  Items in_ = Some src ->
  base src < length h ->
  offset src + len src <= length (nth (base src) h []) ->
  exists dst,
    fst (CoreList_DeepCopyInto in_ out h)
    = mkCoreList (List_TypeMeta in_) (List_ListMeta in_) (Some dst)
    /\ dst = mkSlice (length h) 0 (len src)
    /\ length (snd (CoreList_DeepCopyInto in_ out h)) = S (length h)
    /\ (forall b, b < length h ->
                  nth b (snd (CoreList_DeepCopyInto in_ out h)) [] = nth b h [])
    /\ (forall i, i < len src ->
                  load (snd (CoreList_DeepCopyInto in_ out h)) dst i
                  = Core_DeepCopyInto (load h src i) Core_zero)
    /\ (forall i j v,
          load (store (snd (CoreList_DeepCopyInto in_ out h)) dst i v) src j
          = load h src j).
Proof.
  intros Hitems Hbase Hlen. unfold CoreList_DeepCopyInto, make. rewrite Hitems.
  cbn [fst snd].
  set (dst := mkSlice (length h) 0 (len src)).
  set (h1 := h ++ [repeat Core_zero (len src)]).
  assert (Hne : base src <> base dst) by (cbn; lia).
  assert (Hdst : base dst < length h1)
    by (subst h1; rewrite length_app; cbn; lia).
  assert (Harr : nth (base dst) h1 [] = repeat Core_zero (len src)).
  { subst h1. cbn [base dst]. rewrite app_nth2 by lia.
    rewrite Nat.sub_diag. reflexivity. }
  assert (Hroom : offset dst + len src <= length (nth (base dst) h1 [])).
  { rewrite Harr, repeat_length. cbn. lia. }
  destruct (copyItems_spec src dst h1 Hne Hdst Hroom) as (Hl & Hother & Hcopied).
  set (h2 := copyItems src dst h1) in *.
  assert (Hold : forall b, b < length h -> nth b h2 [] = nth b h []).
  { intros b Hb. rewrite Hother by (cbn; lia). subst h1. apply app_nth1. exact Hb. }
  assert (Hsrc : forall j, load h1 src j = load h src j).
  { intros j. unfold load. subst h1. rewrite app_nth1 by exact Hbase. reflexivity. }
  exists dst. split; [reflexivity|]. split; [reflexivity|].
  split; [rewrite Hl; subst h1; rewrite length_app; cbn; lia|].
  split; [exact Hold|]. split.
  - intros i Hi. rewrite Hcopied by exact Hi. rewrite Hsrc. reflexivity.
  - intros i j v. rewrite load_store_other_array by (cbn; lia).
    unfold load. rewrite Hold by exact Hbase. reflexivity.
Qed.

(** X21: nil stays nil.  [DeepCopy] of a nil receiver is nil, and
    [DeepCopyObject] then returns the nil interface, never an interface
    holding a nil pointer.  A list whose [Items] is nil is copied to a list
    whose [Items] is nil, not an empty slice, and no array is allocated for
    it; a list with items, even none, gets an array.  What the struct behind
    [out] held before plays no part. *)
Theorem DeepCopy_keeps_nil :
  Core_DeepCopy None = None
  /\ CoreSpec_DeepCopy None = None
  /\ CoreStatus_DeepCopy None = None
  /\ (forall h, CoreList_DeepCopy None h = (None, h))
  /\ (forall in_, Core_DeepCopyObject in_ = None <-> in_ = None)
  /\ (forall in_, Core_DeepCopyObject in_ <> Some (CorePointer None))
  /\ (forall in_ h, fst (CoreList_DeepCopyObject in_ h) = None <-> in_ = None)
  /\ (forall in_ h, fst (CoreList_DeepCopyObject in_ h) <> Some (CoreListPointer None))
  /\ (forall in_ out h,
        Items in_ = None -> CoreList_DeepCopyInto in_ out h = (in_, h))
  /\ (forall in_ out h,
        Items in_ <> None ->
        Items (fst (CoreList_DeepCopyInto in_ out h)) <> None
        /\ length (snd (CoreList_DeepCopyInto in_ out h)) = S (length h))
  /\ (forall in_ out out' h,
        CoreList_DeepCopyInto in_ out h = CoreList_DeepCopyInto in_ out' h)
  /\ (forall in_ out out', Core_DeepCopyInto in_ out = Core_DeepCopyInto in_ out').
Proof.
  assert (Hcopy : forall src dst h, length (copyItems src dst h) = length h).
  { intros src dst h. unfold copyItems. generalize (seq 0 (len src)). intros l.
    revert h. induction l as [|i l IH]; intros h; [reflexivity|].
    cbn [fold_left]. rewrite IH. apply store_length. }
  split; [reflexivity|]. split; [reflexivity|]. split; [reflexivity|].
  split; [reflexivity|].
  split. { intros [c|]; split; try reflexivity; discriminate. }
  split. { intros [c|]; discriminate. }
  split.
  { intros [l|] h; unfold CoreList_DeepCopyObject, CoreList_DeepCopy.
    - destruct (CoreList_DeepCopyInto l CoreList_zero h). split; discriminate.
    - split; reflexivity. }
  split.
  { intros [l|] h; unfold CoreList_DeepCopyObject, CoreList_DeepCopy.
    - destruct (CoreList_DeepCopyInto l CoreList_zero h). discriminate.
    - discriminate. }
  split.
  { intros [tm lm items] out h Hnil. cbn in Hnil. subst items. reflexivity. }
  split.
  { intros in_ out h Hitems. unfold CoreList_DeepCopyInto, make.
    destruct (Items in_) as [src|]; [|contradiction]. cbn [fst snd Items].
    split; [discriminate|]. rewrite Hcopy, length_app. cbn. lia. }
  split; reflexivity.
Qed.

End DeepCopy.

(** * Concrete passes

    A small cluster to run the controller on: values for the constants and
    helpers of the other packages, and the cluster's answers. *)

Definition exampleConstants : Constants :=
  {| OperatorNamespace := "tigera-operator";
     TigeraPrometheusNamespace := "tigera-prometheus";
     ComplianceFeature := "compliance";
     AuthTypeToken := "Token";
     TigeraStatusReady := "Ready";
     ProviderOpenShift := "OpenShift";
     TLSCertKey := "tls.crt";
     ManagerNamespace := "tigera-manager";
     ManagerServiceName := "tigera-manager";
     ManagerTLSSecretName := "manager-tls";
     ManagerSecretKeyName := "key";
     ManagerSecretCertName := "cert";
     ManagerInternalTLSSecretName := "internal-manager-tls";
     ManagerInternalSecretCertName := "cert";
     ComplianceServerCertSecret := "tigera-compliance-server-tls";
     PacketCaptureCertSecret := "tigera-packetcapture-server-tls";
     PrometheusTLSSecretName := "calico-node-prometheus-tls";
     KibanaPublicCertSecret := "tigera-secure-kb-http-certs-public";
     ElasticsearchManagerUserSecret := "tigera-ee-manager-elasticsearch-access";
     VoltronTunnelSecretName := "tigera-management-cluster-connection" |}.

Definition exampleDNSNames (svc ns domain : string) : list string :=
  [svc; svc +++ "." +++ ns; svc +++ "." +++ ns +++ ".svc";
   svc +++ "." +++ ns +++ ".svc." +++ domain].

Definition exampleIssuedByOperator (cert : option Blob) : result bool :=
  match cert with
  | Some (CertMaterial c) =>
      ok (match provenance c with OperatorManaged => true | _ => false end)
  | _ => failed (mkError false "cannot parse certificate")
  end.

(** A license is the list of the features it turns on. *)
Definition exampleFeatureActive (license : list string) (feature : string) : bool :=
  existsb (String.eqb feature) license.

Definition exampleQuote (s : string) : string := "'" +++ s +++ "'".

Definition ExampleWorld : Type :=
  @World (list string) string string string string string string string.

Definition exampleSecret (name : string) : Secret :=
  mkSecret name "tigera-operator" [("tls.crt", Raw "pem")].

Definition exampleCluster
    (manager : result Manager) (apiServerReady : bool)
    (license : result (list string)) (installation : Installation)
    (managerTLS : option Secret)
    (managementCluster managementClusterConnection : option string)
    (apply : Component -> option error) (available : bool) : ExampleWorld :=
  {| client_Get_Manager := manager;
     IsAPIServerReady := apiServerReady;
     FetchLicenseKey := license;
     GetInstallation := ok ("TigeraSecureEnterprise", installation);
     ValidateCertPair := fun _ name _ _ =>
       if String.eqb name "manager-tls" then ok managerTLS
       else ok (Some (exampleSecret name));
     CreateOperatorTLSSecret_err := None;
     GetCompliance := ok (mkCompliance "Ready");
     client_Get_Namespace := fun _ => None;
     GetNetworkingPullSecrets := fun _ => ok [];
     GetElasticsearchClusterConfig := ok "cluster";
     ElasticsearchSecrets := fun names => ok (map exampleSecret names);
     client_Get_Secret := fun name ns => ok (mkSecret name ns []);
     GetManagementCluster := ok managementCluster;
     GetManagementClusterConnection := ok managementClusterConnection;
     GetAuthentication := (None, Some (mkError true "authentications not found"));
     GetKeyValidatorConfig := fun _ _ => ok "none";
     GetElasticLicenseType := ok "enterprise";
     render_Manager := fun _ => ok "manager";
     ApplyImageSet := fun _ c => ok c;
     CreateOrUpdateOrDelete := apply;
     IsAvailable := available;
     Status_Update := fun _ => None |}.

Definition exampleManager (auth : option Auth) : Manager :=
  mkManager (mkManagerSpec auth) (mkManagerStatus "").

Definition exampleInstallation : Installation := mkInstallation None (Some 3%Z).

Definition applyAll (c : @Component string) : option error := None.

(** A standalone cluster with everything the manager needs in place. *)
Definition healthy : ExampleWorld :=
  exampleCluster (ok (exampleManager None)) true (ok ["compliance"])
    exampleInstallation None None None applyAll true.

Definition ready : ReconcileManager := mkReconcileManager "" "cluster.local" true.
Definition notReady : ReconcileManager := mkReconcileManager "" "cluster.local" false.

Definition examplePass (r : ReconcileManager) (w : ExampleWorld) : Run :=
  pass "" exampleConstants exampleDNSNames exampleIssuedByOperator
    exampleFeatureActive exampleQuote r w.

Definition exampleReaches (r : ReconcileManager) (w : ExampleWorld) (d : Dep) : Prop :=
  reaches "" exampleConstants exampleDNSNames exampleIssuedByOperator
    exampleFeatureActive exampleQuote r w d.


(** ** The properties on concrete passes *)

(** Whether [needle] occurs in [s]. *)
Fixpoint mentions (needle s : string) : bool :=
  String.prefix needle s
  || match s with
     | EmptyString => false
     | String _ s' => mentions needle s'
     end.

Definition oidcManager : Manager := exampleManager (Some (mkAuth "OIDC")).
Definition basicManager : Manager := exampleManager (Some (mkAuth "Basic")).

Definition withManager (m : Manager) : ExampleWorld :=
  exampleCluster (ok m) true (ok ["compliance"])
    exampleInstallation None None None applyAll true.

Lemma GetManager_accepts_absent_auth_witness :
  client_Get_Manager healthy = ok (exampleManager None)
  /\ (Auth_ (Spec (exampleManager None)) = None ->
      GetManager exampleConstants healthy = ok (exampleManager None))
  /\ (forall e, GetManager exampleConstants healthy = failed e <->
                exists a, Auth_ (Spec (exampleManager None)) = Some a
                          /\ Type_ a <> AuthTypeToken exampleConstants
                          /\ e = GetManager_authError).
Proof.
  split; [reflexivity|].
  apply (GetManager_accepts_absent_auth exampleConstants healthy (exampleManager None)).
  reflexivity.
Defined.

(** C2 as stated fails: for the auth types OIDC and Basic, neither supported,
    the pass returns one and the same error, and its message names neither. *)
Lemma unsupported_auth_message_omits_mode :
  Type_ (mkAuth "OIDC") <> AuthTypeToken exampleConstants
  /\ Type_ (mkAuth "Basic") <> AuthTypeToken exampleConstants
  /\ exists e,
       err (outcome (examplePass ready (withManager oidcManager))) = Some e
       /\ err (outcome (examplePass ready (withManager basicManager))) = Some e
       /\ mentions "OIDC" (Error e) = false
       /\ mentions "Basic" (Error e) = false.
Proof.
  split; [discriminate|]. split; [discriminate|].
  exists GetManager_authError. repeat split; reflexivity.
Qed.

Lemma unsupported_auth_fails_first_witness :
  client_Get_Manager (withManager oidcManager) = ok oidcManager
  /\ Auth_ (Spec oidcManager) = Some (mkAuth "OIDC")
  /\ Type_ (mkAuth "OIDC") <> AuthTypeToken exampleConstants
  /\ examplePass ready (withManager oidcManager) =
       mkRun [Fetch DManager;
              SetDegraded "Error querying Manager" (Error GetManager_authError)]
             (mkOutcome Result_zero (Some GetManager_authError))
  /\ Error GetManager_authError =
     "auth types other than 'Token' can no longer be configured using the Manager CR, please use the Authentication CR instead".
Proof.
  split; [reflexivity|]. split; [reflexivity|]. split; [discriminate|].
  apply (unsupported_auth_fails_first "" exampleConstants exampleDNSNames
           exampleIssuedByOperator exampleFeatureActive exampleQuote
           ready (withManager oidcManager) oidcManager (mkAuth "OIDC"));
    [reflexivity | reflexivity | discriminate].
Defined.

Lemma license_api_not_ready_waits_witness :
  licenseAPIReady notReady = false
  /\ exampleReaches notReady healthy DLicenseAPIReady
  /\ degradedAfter None (trace (examplePass notReady healthy))
     = Some ("Waiting for LicenseKeyAPI to be ready", "")
  /\ err (outcome (examplePass notReady healthy)) = None
  /\ res (outcome (examplePass notReady healthy)) = mkResult false (10 * time_Second)%Z
  /\ (10 * time_Second = 10000000000)%Z
  /\ applied (trace (examplePass notReady healthy)) = []
  /\ statusWrites (trace (examplePass notReady healthy)) = [].
Proof.
  split; [reflexivity|]. split; [reflexivity|].
  apply (license_api_not_ready_waits "" exampleConstants exampleDNSNames
           exampleIssuedByOperator exampleFeatureActive exampleQuote
           notReady healthy None); reflexivity.
Defined.

Definition connectionRefused : error := mkError false "connection refused".

Definition licenseUnreadable : ExampleWorld :=
  exampleCluster (ok (exampleManager None)) true (failed connectionRefused)
    exampleInstallation None None None applyAll true.

(** C1 as stated fails: a license read that fails with an error other than
    not-found does not make the pass return that error. *)
Lemma license_other_error_not_returned :
  exampleReaches ready licenseUnreadable DLicenseKey
  /\ FetchLicenseKey licenseUnreadable = failed connectionRefused
  /\ IsNotFound connectionRefused = false
  /\ err (outcome (examplePass ready licenseUnreadable)) = None
  /\ err (outcome (examplePass ready licenseUnreadable)) <> Some connectionRefused.
Proof. repeat split; try reflexivity. discriminate. Qed.

Lemma license_fetch_error_waits_witness :
  exampleReaches ready licenseUnreadable DLicenseKey
  /\ FetchLicenseKey licenseUnreadable = failed connectionRefused
  /\ degradedAfter None (trace (examplePass ready licenseUnreadable)) =
       Some (if IsNotFound connectionRefused
             then "License not found" else "Error querying license",
             Error connectionRefused)
  /\ outcome (examplePass ready licenseUnreadable)
     = mkOutcome (mkResult false (10 * time_Second)%Z) None
  /\ applied (trace (examplePass ready licenseUnreadable)) = []
  /\ statusWrites (trace (examplePass ready licenseUnreadable)) = [].
Proof.
  split; [reflexivity|]. split; [reflexivity|].
  apply (license_fetch_error_waits "" exampleConstants exampleDNSNames
           exampleIssuedByOperator exampleFeatureActive exampleQuote
           ready licenseUnreadable connectionRefused None); reflexivity.
Defined.

(** A cluster declared both a hub and a spoke. *)
Definition hubAndSpoke : ExampleWorld :=
  exampleCluster (ok (exampleManager None)) true (ok ["compliance"])
    exampleInstallation None (Some "hub") (Some "spoke") applyAll true.

Lemma both_topologies_conflict_witness :
  GetManagementCluster hubAndSpoke = ok (Some "hub")
  /\ GetManagementClusterConnection hubAndSpoke = ok (Some "spoke")
  /\ exampleReaches ready hubAndSpoke DManagementClusterConnection
  /\ degradedAfter None (trace (examplePass ready hubAndSpoke))
     = Some ("having both a ManagementCluster and a ManagementClusterConnection is not supported",
             "")
  /\ outcome (examplePass ready hubAndSpoke)
     = mkOutcome Result_zero (Some conflictError)
  /\ applied (trace (examplePass ready hubAndSpoke)) = []
  /\ statusWrites (trace (examplePass ready hubAndSpoke)) = []
  /\ rendered (trace (examplePass ready hubAndSpoke)) = []
  /\ cleared (trace (examplePass ready hubAndSpoke)) = false
  /\ Error conflictError =
     "having both a ManagementCluster and a ManagementClusterConnection is not supported".
Proof.
  split; [reflexivity|]. split; [reflexivity|]. split; [reflexivity|].
  apply (both_topologies_conflict "" exampleConstants exampleDNSNames
           exampleIssuedByOperator exampleFeatureActive exampleQuote
           ready hubAndSpoke "hub" "spoke" None); reflexivity.
Defined.

(** However far a pass on that cluster gets, it applies nothing. *)
Example hubAndSpoke_applies_nothing :
  applied (trace (examplePass ready hubAndSpoke)) = []
  /\ statusWrites (trace (examplePass ready hubAndSpoke)) = []
  /\ rendered (trace (examplePass ready hubAndSpoke)) = []
  /\ cleared (trace (examplePass ready hubAndSpoke)) = false.
Proof.
  apply (both_topologies_apply_nothing "" exampleConstants exampleDNSNames
           exampleIssuedByOperator exampleFeatureActive exampleQuote
           ready hubAndSpoke "hub" "spoke"); reflexivity.
Qed.

(** Certificate management is delegated, and the manager TLS secret holds a
    certificate a user brought. *)
Definition userSecret : Secret :=
  mkSecret "manager-tls" "tigera-operator"
    [("key", KeyMaterial);
     ("cert", CertMaterial (mkCertificate ["manager.example.com"] time_Hour UserProvided))].

Definition delegated : Installation :=
  mkInstallation (Some (mkCertificateManagement "ca-pem")) (Some 3%Z).

Definition userCertUnderDelegation : ExampleWorld :=
  exampleCluster (ok (exampleManager None)) true (ok ["compliance"])
    delegated (Some userSecret) None None applyAll true.

Lemma user_provided_cert_rejected_witness :
  GetInstallation userCertUnderDelegation = ok ("TigeraSecureEnterprise", delegated)
  /\ CertificateManagement_ delegated = Some (mkCertificateManagement "ca-pem")
  /\ ValidateCertPair userCertUnderDelegation "tigera-operator" "manager-tls" "key" "cert"
     = ok (Some userSecret)
  /\ exampleIssuedByOperator (Data_get (Data userSecret) "cert") = ok false
  /\ exampleReaches ready userCertUnderDelegation (DCertPair "tigera-operator" "manager-tls")
  /\ degradedAfter None (trace (examplePass ready userCertUnderDelegation)) =
       Some ("Invalid certificate configuration", Error (userProvidedError exampleConstants))
  /\ outcome (examplePass ready userCertUnderDelegation)
     = mkOutcome Result_zero (Some (userProvidedError exampleConstants))
  /\ rendered (trace (examplePass ready userCertUnderDelegation)) = []
  /\ applied (trace (examplePass ready userCertUnderDelegation)) = []
  /\ statusWrites (trace (examplePass ready userCertUnderDelegation)) = []
  /\ Error (userProvidedError exampleConstants) =
     "user provided secret " +++ "tigera-manager" +++ "/" +++ "manager-tls"
     +++ " is not supported when certificate management is enabled".
Proof.
  split; [reflexivity|]. split; [reflexivity|]. split; [reflexivity|].
  split; [reflexivity|]. split; [reflexivity|].
  apply (user_provided_cert_rejected "" exampleConstants exampleDNSNames
           exampleIssuedByOperator exampleFeatureActive exampleQuote
           ready userCertUnderDelegation "TigeraSecureEnterprise" delegated
           (mkCertificateManagement "ca-pem") userSecret None); reflexivity.
Defined.

(** A certificate that cannot be read is no more accepted than one a user
    brought. *)
Definition unreadableSecret : Secret :=
  mkSecret "manager-tls" "tigera-operator" [("key", KeyMaterial)].

Definition unreadableCertUnderDelegation : ExampleWorld :=
  exampleCluster (ok (exampleManager None)) true (ok ["compliance"])
    delegated (Some unreadableSecret) None None applyAll true.

Example unreadableCertUnderDelegation_not_accepted :
  exampleIssuedByOperator (Data_get (Data unreadableSecret) "cert") <> ok true
  /\ rendered (trace (examplePass ready unreadableCertUnderDelegation)) = []
  /\ applied (trace (examplePass ready unreadableCertUnderDelegation)) = []
  /\ statusWrites (trace (examplePass ready unreadableCertUnderDelegation)) = []
  /\ cleared (trace (examplePass ready unreadableCertUnderDelegation)) = false.
Proof.
  split; [discriminate|].
  apply (unissued_certificate_never_accepted "" exampleConstants exampleDNSNames
           exampleIssuedByOperator exampleFeatureActive exampleQuote
           ready unreadableCertUnderDelegation "TigeraSecureEnterprise" delegated
           (mkCertificateManagement "ca-pem") unreadableSecret);
    first [ reflexivity | discriminate ].
Qed.

(** The DNS names and validity the pass asks for on the example cluster, and
    the secret synthesized from them. *)
Definition exampleNames : list string :=
  ["tigera-manager"; "tigera-manager.tigera-manager";
   "tigera-manager.tigera-manager.svc";
   "tigera-manager.tigera-manager.svc.cluster.local"; "localhost"].

Definition exampleSynthesized : Secret :=
  mkSecret "manager-tls" "tigera-operator"
    [("cert", CertMaterial (mkCertificate exampleNames 71280000000000000%Z OperatorManaged));
     ("key", KeyMaterial)].

Lemma synthesized_certificate_names_and_validity_witness :
  GetInstallation healthy = ok ("TigeraSecureEnterprise", exampleInstallation)
  /\ CertificateManagement_ exampleInstallation = None
  /\ ValidateCertPair healthy "tigera-operator" "manager-tls" "key" "cert" = ok None
  /\ CreateOperatorTLSSecret_err healthy = None
  /\ exampleReaches ready healthy (DCertPair "tigera-operator" "manager-tls")
  /\ ensured (trace (examplePass ready healthy))
     = [(None, 71280000000000000%Z, exampleNames)]
  /\ EnsureCertificateSecret exampleConstants healthy "manager-tls" None "key" "cert"
       71280000000000000%Z exampleNames = ok (Some exampleSynthesized, true)
  /\ Data_get (Data exampleSynthesized) "cert"
     = Some (CertMaterial (mkCertificate exampleNames 71280000000000000%Z OperatorManaged))
  /\ (forall cfg, In cfg (rendered (trace (examplePass ready healthy))) ->
                  TLSKeyPair cfg = Some exampleSynthesized)
  /\ (71280000000000000 = 825 * 24 * (60 * 60 * 1000000000))%Z.
Proof.
  split; [reflexivity|]. split; [reflexivity|]. split; [reflexivity|].
  split; [reflexivity|]. split; [reflexivity|].
  apply (synthesized_certificate_names_and_validity "" exampleConstants exampleDNSNames
           exampleIssuedByOperator exampleFeatureActive exampleQuote
           ready healthy "TigeraSecureEnterprise" exampleInstallation);
    reflexivity.
Defined.

(** A hub cluster whose installation asks for three replicas. *)
Definition hub : ExampleWorld :=
  exampleCluster (ok (exampleManager None)) true (ok [])
    exampleInstallation None (Some "hub") None applyAll true.

Definition hubConfiguration : ManagerConfiguration :=
  {| KeyValidatorConfig_ := "none";
     ESSecrets := [exampleSecret "tigera-ee-manager-elasticsearch-access"];
     KibanaSecrets := [mkSecret "tigera-secure-kb-http-certs-public" "tigera-operator" []];
     ComplianceServerCertSecret_ := None;
     PacketCaptureServerCertSecret := Some (exampleSecret "tigera-packetcapture-server-tls");
     PrometheusCertSecret := Some (exampleSecret "calico-node-prometheus-tls");
     ESClusterConfig := "cluster";
     TLSKeyPair := Some exampleSynthesized;
     PullSecrets := [];
     Openshift := false;
     Installation_ := exampleInstallation;
     ManagementCluster_ := Some "hub";
     TunnelSecret :=
       Some (mkSecret "tigera-management-cluster-connection" "tigera-operator" []);
     InternalTrafficSecret := Some (mkSecret "internal-manager-tls" "tigera-operator" []);
     ClusterDomain := "cluster.local";
     ESLicenseType := "enterprise";
     Replicas := Some 1%Z |}.

Lemma replicas_one_for_multicluster_witness :
  In hubConfiguration (rendered (trace (examplePass ready hub)))
  /\ exists v inst mc mcc,
       GetInstallation hub = ok (v, inst)
       /\ GetManagementCluster hub = ok mc
       /\ GetManagementClusterConnection hub = ok mcc
       /\ (mc <> None \/ mcc <> None -> Replicas hubConfiguration = Some 1%Z)
       /\ (mc = None -> mcc = None ->
           Replicas hubConfiguration = ControlPlaneReplicas inst).
Proof.
  split; [left; reflexivity|].
  apply (replicas_one_for_multicluster "" exampleConstants exampleDNSNames
           exampleIssuedByOperator exampleFeatureActive exampleQuote
           ready hub hubConfiguration).
  left. reflexivity.
Defined.

(** On the hub the installation's three replicas give way to one; on the
    standalone cluster they are kept. *)
Example hub_replicas :
  map Replicas (rendered (trace (examplePass ready hub))) = [Some 1%Z]
  /\ map Replicas (rendered (trace (examplePass ready healthy))) = [Some 3%Z]
  /\ ControlPlaneReplicas exampleInstallation = Some 3%Z.
Proof. repeat split; reflexivity. Qed.

(** The status is written on the healthy cluster, and is not when the status
    manager does not report available, though that pass too applied both
    components, cleared the degraded condition and returned no error. *)
Definition unavailable : ExampleWorld :=
  exampleCluster (ok (exampleManager None)) true (ok ["compliance"])
    exampleInstallation None None None applyAll false.

Example status_written_when_available :
  statusWrites (trace (examplePass ready healthy))
  = [mkManager (mkManagerSpec None) (mkManagerStatus "Ready")]
  /\ statusWrites (trace (examplePass ready unavailable)) = []
  /\ applied (trace (examplePass ready unavailable))
     = [NewPassthrough [exampleSynthesized]; RenderedSet "manager"]
  /\ cleared (trace (examplePass ready unavailable)) = true
  /\ outcome (examplePass ready unavailable) = mkOutcome Result_zero None.
Proof. repeat split; reflexivity. Qed.

(** The handler refuses the passthrough: the rendered component is not
    applied, and the refusal is the pass's error. *)
Definition forbidden : error := mkError false "secrets is forbidden".

Definition refusePassthrough (c : @Component string) : option error :=
  match c with
  | NewPassthrough _ => Some forbidden
  | RenderedSet _ => None
  end.

Definition passthroughRefused : ExampleWorld :=
  exampleCluster (ok (exampleManager None)) true (ok ["compliance"])
    exampleInstallation None None None refusePassthrough true.

Example first_failure_stops_the_loop :
  applied (trace (examplePass ready passthroughRefused))
  = [NewPassthrough [exampleSynthesized]]
  /\ outcome (examplePass ready passthroughRefused)
     = mkOutcome Result_zero (Some forbidden)
  /\ degradedAfter None (trace (examplePass ready passthroughRefused))
     = Some ("Error creating / updating resource", "secrets is forbidden")
  /\ statusWrites (trace (examplePass ready passthroughRefused)) = [].
Proof. repeat split; reflexivity. Qed.

(** What is rendered on the standalone cluster. *)
Definition standaloneConfiguration : @ManagerConfiguration string string string string :=
  {| KeyValidatorConfig_ := "none";
     ESSecrets := [exampleSecret "tigera-ee-manager-elasticsearch-access"];
     KibanaSecrets := [mkSecret "tigera-secure-kb-http-certs-public" "tigera-operator" []];
     ComplianceServerCertSecret_ := Some (exampleSecret "tigera-compliance-server-tls");
     PacketCaptureServerCertSecret := Some (exampleSecret "tigera-packetcapture-server-tls");
     PrometheusCertSecret := Some (exampleSecret "calico-node-prometheus-tls");
     ESClusterConfig := "cluster";
     TLSKeyPair := Some exampleSynthesized;
     PullSecrets := [];
     Openshift := false;
     Installation_ := exampleInstallation;
     ManagementCluster_ := None;
     TunnelSecret := None;
     InternalTrafficSecret := None;
     ClusterDomain := "cluster.local";
     ESLicenseType := "enterprise";
     Replicas := Some 3%Z |}.

(** The handler takes the passthrough and refuses the rendered component. *)
Definition refuseRendered (c : @Component string) : option error :=
  match c with
  | NewPassthrough _ => None
  | RenderedSet _ => Some forbidden
  end.

Definition renderedRefused : ExampleWorld :=
  exampleCluster (ok (exampleManager None)) true (ok ["compliance"])
    exampleInstallation None None None refuseRendered true.

Lemma components_applied_in_order_witness :
  (In standaloneConfiguration (rendered (trace (examplePass ready passthroughRefused)))
   /\ GetInstallation passthroughRefused = ok ("TigeraSecureEnterprise", exampleInstallation)
   /\ render_Manager passthroughRefused standaloneConfiguration = ok "manager"
   /\ ApplyImageSet passthroughRefused "TigeraSecureEnterprise" "manager" = ok "manager"
   /\ applied (trace (examplePass ready passthroughRefused))
      = [NewPassthrough [exampleSynthesized]]
   /\ outcome (examplePass ready passthroughRefused)
      = mkOutcome Result_zero (Some forbidden)
   /\ (forall cs,
         applied (fst (applyComponents passthroughRefused cs))
         = throughFirstFailure passthroughRefused cs
         /\ match firstFailure passthroughRefused cs with
            | Some e =>
                snd (applyComponents passthroughRefused cs)
                = inr (mkOutcome Result_zero (Some e))
                /\ exists before c after,
                     cs = before ++ c :: after
                     /\ Forall (fun c' => CreateOrUpdateOrDelete passthroughRefused c' = None)
                          before
                     /\ CreateOrUpdateOrDelete passthroughRefused c = Some e
                     /\ throughFirstFailure passthroughRefused cs = before ++ [c]
            | None =>
                snd (applyComponents passthroughRefused cs) = inl tt
                /\ Forall (fun c => CreateOrUpdateOrDelete passthroughRefused c = None) cs
                /\ throughFirstFailure passthroughRefused cs = cs
            end)
   /\ exists passthrough,
        rendered (trace (examplePass ready passthroughRefused)) = [standaloneConfiguration]
        /\ (passthrough = []
            \/ exists s, TLSKeyPair standaloneConfiguration = Some s
                         /\ passthrough = [NewPassthrough [s]])
        /\ applied (trace (examplePass ready passthroughRefused))
           = throughFirstFailure passthroughRefused (passthrough ++ [RenderedSet "manager"])
        /\ applied (trace (examplePass ready passthroughRefused)) <> []
        /\ match firstFailure passthroughRefused (passthrough ++ [RenderedSet "manager"]) with
           | Some e =>
               outcome (examplePass ready passthroughRefused)
               = mkOutcome Result_zero (Some e)
               /\ degradedAfter None (trace (examplePass ready passthroughRefused))
                  = Some ("Error creating / updating resource", Error e)
               /\ cleared (trace (examplePass ready passthroughRefused)) = false
               /\ statusWrites (trace (examplePass ready passthroughRefused)) = []
           | None =>
               applied (trace (examplePass ready passthroughRefused))
               = passthrough ++ [RenderedSet "manager"]
               /\ cleared (trace (examplePass ready passthroughRefused)) = true
           end)
  /\ (In standaloneConfiguration (rendered (trace (examplePass ready renderedRefused)))
      /\ applied (trace (examplePass ready renderedRefused))
         = [NewPassthrough [exampleSynthesized]; RenderedSet "manager"]
      /\ outcome (examplePass ready renderedRefused)
         = mkOutcome Result_zero (Some forbidden)
      /\ degradedAfter None (trace (examplePass ready renderedRefused))
         = Some ("Error creating / updating resource", "secrets is forbidden")
      /\ exists passthrough,
           rendered (trace (examplePass ready renderedRefused)) = [standaloneConfiguration]
           /\ (passthrough = []
               \/ exists s, TLSKeyPair standaloneConfiguration = Some s
                            /\ passthrough = [NewPassthrough [s]])
           /\ applied (trace (examplePass ready renderedRefused))
              = throughFirstFailure renderedRefused (passthrough ++ [RenderedSet "manager"])
           /\ applied (trace (examplePass ready renderedRefused)) <> []
           /\ match firstFailure renderedRefused (passthrough ++ [RenderedSet "manager"]) with
              | Some e =>
                  outcome (examplePass ready renderedRefused)
                  = mkOutcome Result_zero (Some e)
                  /\ degradedAfter None (trace (examplePass ready renderedRefused))
                     = Some ("Error creating / updating resource", Error e)
                  /\ cleared (trace (examplePass ready renderedRefused)) = false
                  /\ statusWrites (trace (examplePass ready renderedRefused)) = []
              | None =>
                  applied (trace (examplePass ready renderedRefused))
                  = passthrough ++ [RenderedSet "manager"]
                  /\ cleared (trace (examplePass ready renderedRefused)) = true
              end)
  /\ (In standaloneConfiguration (rendered (trace (examplePass ready healthy)))
      /\ applied (trace (examplePass ready healthy))
         = [NewPassthrough [exampleSynthesized]; RenderedSet "manager"]
      /\ outcome (examplePass ready healthy) = mkOutcome Result_zero None
      /\ exists passthrough,
           rendered (trace (examplePass ready healthy)) = [standaloneConfiguration]
           /\ (passthrough = []
               \/ exists s, TLSKeyPair standaloneConfiguration = Some s
                            /\ passthrough = [NewPassthrough [s]])
           /\ applied (trace (examplePass ready healthy))
              = throughFirstFailure healthy (passthrough ++ [RenderedSet "manager"])
           /\ applied (trace (examplePass ready healthy)) <> []
           /\ match firstFailure healthy (passthrough ++ [RenderedSet "manager"]) with
              | Some e =>
                  outcome (examplePass ready healthy) = mkOutcome Result_zero (Some e)
                  /\ degradedAfter None (trace (examplePass ready healthy))
                     = Some ("Error creating / updating resource", Error e)
                  /\ cleared (trace (examplePass ready healthy)) = false
                  /\ statusWrites (trace (examplePass ready healthy)) = []
              | None =>
                  applied (trace (examplePass ready healthy))
                  = passthrough ++ [RenderedSet "manager"]
                  /\ cleared (trace (examplePass ready healthy)) = true
              end).
Proof.
  split; [|split].
  - split; [left; reflexivity|]. split; [reflexivity|]. split; [reflexivity|].
    split; [reflexivity|]. split; [reflexivity|]. split; [reflexivity|].
    apply (components_applied_in_order "" exampleConstants exampleDNSNames
             exampleIssuedByOperator exampleFeatureActive exampleQuote
             ready passthroughRefused None standaloneConfiguration
             "TigeraSecureEnterprise" exampleInstallation "manager" "manager");
      first [ reflexivity | left; reflexivity ].
  - split; [left; reflexivity|]. split; [reflexivity|]. split; [reflexivity|].
    split; [reflexivity|].
    apply (components_applied_in_order "" exampleConstants exampleDNSNames
             exampleIssuedByOperator exampleFeatureActive exampleQuote
             ready renderedRefused None standaloneConfiguration
             "TigeraSecureEnterprise" exampleInstallation "manager" "manager");
      first [ reflexivity | left; reflexivity ].
  - split; [left; reflexivity|]. split; [reflexivity|]. split; [reflexivity|].
    apply (components_applied_in_order "" exampleConstants exampleDNSNames
             exampleIssuedByOperator exampleFeatureActive exampleQuote
             ready healthy None standaloneConfiguration
             "TigeraSecureEnterprise" exampleInstallation "manager" "manager");
      first [ reflexivity | left; reflexivity ].
Defined.

(** ** Further passes *)

Definition notFound : error := mkError true "managers tigera-secure not found".

(** A cluster in which no Manager resource was created. *)
Definition noManager : ExampleWorld :=
  exampleCluster (failed notFound) true (ok ["compliance"])
    exampleInstallation None None None applyAll true.

Lemma manager_absent_ends_quietly_witness :
  client_Get_Manager noManager = failed notFound
  /\ IsNotFound notFound = true
  /\ GetManager exampleConstants noManager = failed notFound
  /\ examplePass ready noManager
     = mkRun [Fetch DManager; OnCRNotFound] (mkOutcome Result_zero None).
Proof.
  split; [reflexivity|]. split; [reflexivity|].
  apply (manager_absent_ends_quietly "" exampleConstants exampleDNSNames
           exampleIssuedByOperator exampleFeatureActive exampleQuote
           ready noManager notFound); reflexivity.
Defined.

Lemma degraded_is_the_last_call_witness :
  trace (examplePass notReady healthy)
  = [Fetch DManager; OnCRFound; Fetch DAPIServer; Fetch DLicenseAPIReady]
    ++ SetDegraded "Waiting for LicenseKeyAPI to be ready" "" :: []
  /\ @nil (@Event string string string string string) = []
  /\ degradations
       [@Fetch string string string string string DManager; OnCRFound;
        Fetch DAPIServer; Fetch DLicenseAPIReady] = []
  /\ cleared
       [@Fetch string string string string string DManager; OnCRFound;
        Fetch DAPIServer; Fetch DLicenseAPIReady] = false.
Proof.
  split; [reflexivity|].
  apply (degraded_is_the_last_call "" exampleConstants exampleDNSNames
           exampleIssuedByOperator exampleFeatureActive exampleQuote
           notReady healthy
           [Fetch DManager; OnCRFound; Fetch DAPIServer; Fetch DLicenseAPIReady] []
           "Waiting for LicenseKeyAPI to be ready" "").
  reflexivity.
Defined.

Lemma returned_error_is_reported_witness :
  err (outcome (examplePass ready passthroughRefused)) = Some forbidden
  /\ ((exists reason msg,
         degradations (trace (examplePass ready passthroughRefused)) = [(reason, msg)]
         /\ (msg = Error forbidden
             \/ reason = Error forbidden
             \/ (reason = "tigera-prometheus namespace does not exist"
                 /\ IsNotFound forbidden = true)))
      \/ (degradations (trace (examplePass ready passthroughRefused)) = []
          /\ cleared (trace (examplePass ready passthroughRefused)) = true
          /\ exists instance,
               statusWrites (trace (examplePass ready passthroughRefused)) = [instance]
               /\ Status_Update passthroughRefused instance = Some forbidden)).
Proof.
  split; [reflexivity|].
  apply (returned_error_is_reported "" exampleConstants exampleDNSNames
           exampleIssuedByOperator exampleFeatureActive exampleQuote
           ready passthroughRefused forbidden).
  reflexivity.
Defined.

Lemma degraded_cleared_only_when_healthy_witness :
  cleared (trace (examplePass ready healthy)) = true
  /\ IsAPIServerReady healthy = true
  /\ licenseAPIReady ready = true
  /\ (exists license, FetchLicenseKey healthy = ok license)
  /\ (exists variant installation pullSecrets,
        GetInstallation healthy = ok (variant, installation)
        /\ GetNetworkingPullSecrets healthy installation = ok pullSecrets)
  /\ client_Get_Namespace healthy (TigeraPrometheusNamespace exampleConstants) = None
  /\ (exists c, GetElasticsearchClusterConfig healthy = ok c)
  /\ (exists s, ElasticsearchSecrets healthy
                  [ElasticsearchManagerUserSecret exampleConstants] = ok s)
  /\ (exists s, client_Get_Secret healthy (KibanaPublicCertSecret exampleConstants)
                  (OperatorNamespace exampleConstants) = ok s)
  /\ (exists s, ValidateCertPair healthy (OperatorNamespace exampleConstants)
                  (PacketCaptureCertSecret exampleConstants) ""
                  (TLSCertKey exampleConstants) = ok (Some s))
  /\ (exists cfg c, rendered (trace (examplePass ready healthy)) = [cfg]
                    /\ render_Manager healthy cfg = ok c)
  /\ Forall (fun c => CreateOrUpdateOrDelete healthy c = None)
            (applied (trace (examplePass ready healthy)))
  /\ degradations (trace (examplePass ready healthy)) = [].
Proof.
  split; [reflexivity|].
  apply (degraded_cleared_only_when_healthy "" exampleConstants exampleDNSNames
           exampleIssuedByOperator exampleFeatureActive exampleQuote ready healthy).
  reflexivity.
Defined.

Lemma configuration_is_what_was_read_witness :
  In hubConfiguration (rendered (trace (examplePass ready hub)))
  /\ (exists variant,
        GetInstallation hub = ok (variant, Installation_ hubConfiguration))
  /\ GetNetworkingPullSecrets hub (Installation_ hubConfiguration)
     = ok (PullSecrets hubConfiguration)
  /\ GetElasticsearchClusterConfig hub = ok (ESClusterConfig hubConfiguration)
  /\ ElasticsearchSecrets hub [ElasticsearchManagerUserSecret exampleConstants]
     = ok (ESSecrets hubConfiguration)
  /\ (exists kibana,
        client_Get_Secret hub (KibanaPublicCertSecret exampleConstants)
          (OperatorNamespace exampleConstants) = ok kibana
        /\ KibanaSecrets hubConfiguration = [kibana])
  /\ GetManagementCluster hub = ok (ManagementCluster_ hubConfiguration)
  /\ (exists s,
        ValidateCertPair hub (OperatorNamespace exampleConstants)
          (PacketCaptureCertSecret exampleConstants) "" (TLSCertKey exampleConstants)
        = ok (Some s)
        /\ PacketCaptureServerCertSecret hubConfiguration = Some s)
  /\ ValidateCertPair hub (OperatorNamespace exampleConstants)
       (PrometheusTLSSecretName exampleConstants) "" (TLSCertKey exampleConstants)
     = ok (PrometheusCertSecret hubConfiguration)
  /\ (exists authentication getErr,
        GetAuthentication hub = (authentication, getErr)
        /\ GetKeyValidatorConfig hub authentication (clusterDomain ready)
           = ok (KeyValidatorConfig_ hubConfiguration))
  /\ ClusterDomain hubConfiguration = clusterDomain ready
  /\ Openshift hubConfiguration
     = String.eqb (provider ready) (ProviderOpenShift exampleConstants).
Proof.
  split; [left; reflexivity|].
  apply (configuration_is_what_was_read "" exampleConstants exampleDNSNames
           exampleIssuedByOperator exampleFeatureActive exampleQuote
           ready hub hubConfiguration).
  left. reflexivity.
Defined.

Lemma hub_secrets_only_for_management_cluster_witness :
  In hubConfiguration (rendered (trace (examplePass ready hub)))
  /\ match ManagementCluster_ hubConfiguration with
     | Some _ =>
         exists tunnel internal,
           client_Get_Secret hub (VoltronTunnelSecretName exampleConstants)
             (OperatorNamespace exampleConstants) = ok tunnel
           /\ client_Get_Secret hub (ManagerInternalTLSSecretName exampleConstants)
                (OperatorNamespace exampleConstants) = ok internal
           /\ TunnelSecret hubConfiguration = Some tunnel
           /\ InternalTrafficSecret hubConfiguration = Some internal
           /\ GetManagementClusterConnection hub = ok None
     | None =>
         TunnelSecret hubConfiguration = None
         /\ InternalTrafficSecret hubConfiguration = None
     end.
Proof.
  split; [left; reflexivity|].
  apply (hub_secrets_only_for_management_cluster "" exampleConstants exampleDNSNames
           exampleIssuedByOperator exampleFeatureActive exampleQuote
           ready hub hubConfiguration).
  left. reflexivity.
Defined.

(** A managed cluster: it has a ManagementClusterConnection. *)
Definition spoke : ExampleWorld :=
  exampleCluster (ok (exampleManager None)) true (ok ["compliance"])
    exampleInstallation None None (Some "spoke") applyAll true.

Definition spokeConfiguration : @ManagerConfiguration string string string string :=
  {| KeyValidatorConfig_ := "none";
     ESSecrets := [exampleSecret "tigera-ee-manager-elasticsearch-access"];
     KibanaSecrets := [mkSecret "tigera-secure-kb-http-certs-public" "tigera-operator" []];
     ComplianceServerCertSecret_ := Some (exampleSecret "tigera-compliance-server-tls");
     PacketCaptureServerCertSecret := Some (exampleSecret "tigera-packetcapture-server-tls");
     PrometheusCertSecret := Some (exampleSecret "calico-node-prometheus-tls");
     ESClusterConfig := "cluster";
     TLSKeyPair := Some exampleSynthesized;
     PullSecrets := [];
     Openshift := false;
     Installation_ := exampleInstallation;
     ManagementCluster_ := None;
     TunnelSecret := None;
     InternalTrafficSecret := None;
     ClusterDomain := "cluster.local";
     ESLicenseType := "";
     Replicas := Some 1%Z |}.

Lemma elastic_license_skipped_for_managed_cluster_witness :
  In spokeConfiguration (rendered (trace (examplePass ready spoke)))
  /\ (forall mcc,
        GetManagementClusterConnection spoke = ok (Some mcc) ->
        ESLicenseType spokeConfiguration = ""
        /\ fetched DElasticLicenseType (trace (examplePass ready spoke)) = false)
  /\ (GetManagementClusterConnection spoke = ok None ->
      GetElasticLicenseType spoke = ok (ESLicenseType spokeConfiguration)
      /\ fetched DElasticLicenseType (trace (examplePass ready spoke)) = true).
Proof.
  split; [left; reflexivity|].
  apply (elastic_license_skipped_for_managed_cluster "" exampleConstants exampleDNSNames
           exampleIssuedByOperator exampleFeatureActive exampleQuote
           ready spoke spokeConfiguration).
  left. reflexivity.
Defined.

Lemma compliance_checked_only_when_licensed_witness :
  FetchLicenseKey spoke = ok ["compliance"]
  /\ In spokeConfiguration (rendered (trace (examplePass ready spoke)))
  /\ (if exampleFeatureActive ["compliance"] (ComplianceFeature exampleConstants)
      then exists compliance s,
             GetCompliance spoke = ok compliance
             /\ Compliance_State compliance = TigeraStatusReady exampleConstants
             /\ ValidateCertPair spoke (OperatorNamespace exampleConstants)
                  (ComplianceServerCertSecret exampleConstants)
                  "" (TLSCertKey exampleConstants) = ok (Some s)
             /\ ComplianceServerCertSecret_ spokeConfiguration = Some s
      else ComplianceServerCertSecret_ spokeConfiguration = None
           /\ fetched DCompliance (trace (examplePass ready spoke)) = false).
Proof.
  split; [reflexivity|]. split; [left; reflexivity|].
  apply (compliance_checked_only_when_licensed "" exampleConstants exampleDNSNames
           exampleIssuedByOperator exampleFeatureActive exampleQuote
           ready spoke ["compliance"] spokeConfiguration);
    [reflexivity | left; reflexivity].
Defined.

(** Certificate management is delegated, and the manager TLS secret holds a
    certificate issued by the operator's CA. *)
Definition issuedUnderDelegation : ExampleWorld :=
  exampleCluster (ok (exampleManager None)) true (ok ["compliance"])
    delegated (Some exampleSynthesized) None None applyAll true.

Lemma no_certificate_generated_under_delegation_witness :
  GetInstallation issuedUnderDelegation = ok ("TigeraSecureEnterprise", delegated)
  /\ CertificateManagement_ delegated = Some (mkCertificateManagement "ca-pem")
  /\ ensured (trace (examplePass ready issuedUnderDelegation)) = []
  /\ (forall cfg,
        In cfg (rendered (trace (examplePass ready issuedUnderDelegation))) ->
        ValidateCertPair issuedUnderDelegation (OperatorNamespace exampleConstants)
          (ManagerTLSSecretName exampleConstants) (ManagerSecretKeyName exampleConstants)
          (ManagerSecretCertName exampleConstants) = ok (TLSKeyPair cfg))
  /\ (forall objs,
        In (NewPassthrough objs) (applied (trace (examplePass ready issuedUnderDelegation))) ->
        exists s,
          objs = [s]
          /\ ValidateCertPair issuedUnderDelegation (OperatorNamespace exampleConstants)
               (ManagerTLSSecretName exampleConstants)
               (ManagerSecretKeyName exampleConstants)
               (ManagerSecretCertName exampleConstants) = ok (Some s)
          /\ exampleIssuedByOperator
               (Data_get (Data s) (ManagerInternalSecretCertName exampleConstants))
             = ok true).
Proof.
  split; [reflexivity|]. split; [reflexivity|].
  apply (no_certificate_generated_under_delegation "" exampleConstants exampleDNSNames
           exampleIssuedByOperator exampleFeatureActive exampleQuote
           ready issuedUnderDelegation "TigeraSecureEnterprise" delegated
           (mkCertificateManagement "ca-pem")); reflexivity.
Defined.

(** Under delegation the secret found is passed through as it is. *)
Example issuedUnderDelegation_passes_through :
  applied (trace (examplePass ready issuedUnderDelegation))
  = [NewPassthrough [exampleSynthesized]; RenderedSet "manager"]
  /\ ensured (trace (examplePass ready issuedUnderDelegation)) = [].
Proof. split; reflexivity. Qed.


Lemma absent_authentication_is_tolerated_witness :
  GetAuthentication healthy = (None, Some (mkError true "authentications not found"))
  /\ IsNotFound (mkError true "authentications not found") = true
  /\ exampleReaches ready healthy DAuthentication
  /\ exampleReaches ready healthy DKeyValidatorConfig
  /\ forall cfg,
       In cfg (rendered (trace (examplePass ready healthy))) ->
       GetKeyValidatorConfig healthy None (clusterDomain ready)
       = ok (KeyValidatorConfig_ cfg).
Proof.
  split; [reflexivity|]. split; [reflexivity|]. split; [reflexivity|].
  apply (absent_authentication_is_tolerated "" exampleConstants exampleDNSNames
           exampleIssuedByOperator exampleFeatureActive exampleQuote
           ready healthy (mkError true "authentications not found")); reflexivity.
Defined.

Lemma waits_without_error_witness :
  err (outcome (examplePass notReady healthy)) = None
  /\ degradations (trace (examplePass notReady healthy))
     = [("Waiting for LicenseKeyAPI to be ready", "")]
  /\ In "Waiting for LicenseKeyAPI to be ready"
       ["Waiting for Tigera API server to be ready";
        "Waiting for LicenseKeyAPI to be ready";
        "License not found";
        "Error querying license";
        "Compliance is not ready";
        "Waiting for secret '" +++ ComplianceServerCertSecret exampleConstants
          +++ "' to become available";
        "Elasticsearch cluster configuration is not available, waiting for it to become available";
        "Elasticsearch secrets are not available yet, waiting until they become available";
        "Failed to check for the existence of management-cluster-connection secret";
        "Waiting for secret " +++ ManagerInternalTLSSecretName exampleConstants
          +++ " in namespace " +++ OperatorNamespace exampleConstants +++ " to be available";
        "Authentication is not ready";
        "Waiting for secret '" +++ PacketCaptureCertSecret exampleConstants
          +++ "' to become available"].
Proof.
  split; [reflexivity|]. split; [reflexivity|].
  apply (waits_without_error "" exampleConstants exampleDNSNames
           exampleIssuedByOperator exampleFeatureActive exampleQuote
           notReady healthy "Waiting for LicenseKeyAPI to be ready" ""); reflexivity.
Defined.

(** The hub, with the tunnel secret unreadable. *)
Definition hubWithoutTunnel : ExampleWorld :=
  {| client_Get_Manager := client_Get_Manager hub;
     IsAPIServerReady := IsAPIServerReady hub;
     FetchLicenseKey := FetchLicenseKey hub;
     GetInstallation := GetInstallation hub;
     ValidateCertPair := ValidateCertPair hub;
     CreateOperatorTLSSecret_err := CreateOperatorTLSSecret_err hub;
     GetCompliance := GetCompliance hub;
     client_Get_Namespace := client_Get_Namespace hub;
     GetNetworkingPullSecrets := GetNetworkingPullSecrets hub;
     GetElasticsearchClusterConfig := GetElasticsearchClusterConfig hub;
     ElasticsearchSecrets := ElasticsearchSecrets hub;
     client_Get_Secret := fun name namespace =>
       if String.eqb name "tigera-management-cluster-connection"
       then failed connectionRefused
       else client_Get_Secret hub name namespace;
     GetManagementCluster := GetManagementCluster hub;
     GetManagementClusterConnection := GetManagementClusterConnection hub;
     GetAuthentication := GetAuthentication hub;
     GetKeyValidatorConfig := GetKeyValidatorConfig hub;
     GetElasticLicenseType := GetElasticLicenseType hub;
     render_Manager := render_Manager hub;
     ApplyImageSet := ApplyImageSet hub;
     CreateOrUpdateOrDelete := CreateOrUpdateOrDelete hub;
     IsAvailable := IsAvailable hub;
     Status_Update := Status_Update hub |}.

Lemma tunnel_secret_error_waits_witness :
  GetManagementCluster hubWithoutTunnel = ok (Some "hub")
  /\ client_Get_Secret hubWithoutTunnel (VoltronTunnelSecretName exampleConstants)
       (OperatorNamespace exampleConstants) = failed connectionRefused
  /\ rendered (trace (examplePass ready hubWithoutTunnel)) = []
  /\ applied (trace (examplePass ready hubWithoutTunnel)) = []
  /\ exampleReaches ready hubWithoutTunnel DManagementClusterConnection
  /\ GetManagementClusterConnection hubWithoutTunnel = ok None
  /\ degradedAfter None (trace (examplePass ready hubWithoutTunnel))
     = Some ("Failed to check for the existence of management-cluster-connection secret",
             Error connectionRefused)
  /\ outcome (examplePass ready hubWithoutTunnel) = mkOutcome Result_zero None.
Proof.
  split; [reflexivity|]. split; [reflexivity|].
  destruct (tunnel_secret_error_waits "" exampleConstants exampleDNSNames
              exampleIssuedByOperator exampleFeatureActive exampleQuote
              ready hubWithoutTunnel "hub" connectionRefused None eq_refl eq_refl)
    as (Hrendered & Happlied & Hwaits).
  split; [exact Hrendered|]. split; [exact Happlied|].
  split; [reflexivity|]. split; [reflexivity|].
  apply Hwaits; reflexivity.
Defined.

(** That pass does get to the tunnel secret, and the error it met, though
    not a not-found error, is not returned. *)
Example hubWithoutTunnel_waits :
  exampleReaches ready hubWithoutTunnel DManagementClusterConnection
  /\ IsNotFound connectionRefused = false
  /\ outcome (examplePass ready hubWithoutTunnel) = mkOutcome Result_zero None.
Proof. repeat split; reflexivity. Qed.

(** ** Set-ups *)

Definition exampleWatchNames : WatchNames :=
  {| PublicCertSecret := "tigera-secure-es-http-certs-public";
     DexCertSecretName := "tigera-dex-tls";
     StaticWellKnownJWKSConfigMapName := "tigera-known-oidc-users-jwks";
     ClusterConfigConfigMapName := "tigera-secure-elasticsearch";
     ECKLicenseConfigMapName := "elastic-licensing";
     ECKOperatorNamespace := "tigera-eck-operator" |}.

Definition exampleOptions : AddOptions :=
  {| EnterpriseCRDExists := true;
     DetectedProvider := "";
     ClusterDomain_ := "cluster.local";
     KubernetesVersion := "1.21" |}.

(** Every watch is granted. *)
Definition allGranted : SetupWorld :=
  {| controller_New_err := None;
     NewForConfig_err := None;
     Watch_err := fun _ => None |}.

(** Every watch is refused. *)
Definition allRefused : SetupWorld :=
  {| controller_New_err := None;
     NewForConfig_err := None;
     Watch_err := fun _ => Some forbidden |}.

(** Only the watch on the ECK license ConfigMap is refused. *)
Definition licenseMapRefused : SetupWorld :=
  {| controller_New_err := None;
     NewForConfig_err := None;
     Watch_err := fun what =>
       match what with
       | ConfigMapWatch name _ =>
           if String.eqb name "elastic-licensing" then Some forbidden else None
       | _ => None
       end |}.

Lemma add_error_wraps_the_refusal_witness :
  snd (add exampleConstants exampleWatchNames licenseMapRefused)
  = inr (Formatted
           ("manager-controller failed to watch the ConfigMap resource: "
            +++ "secrets is forbidden"))
  /\ exists x e before,
       watches (fst (add exampleConstants exampleWatchNames licenseMapRefused))
       = before ++ [x]
       /\ Watch_err licenseMapRefused x = Some e
       /\ (exists format,
             goerror_Error
               (Formatted
                  ("manager-controller failed to watch the ConfigMap resource: "
                   +++ "secrets is forbidden"))
             = format +++ Error e)
       /\ (errors_Unwrap
             (Formatted
                ("manager-controller failed to watch the ConfigMap resource: "
                 +++ "secrets is forbidden"))
           = Some (Opaque e)
           \/ (x = ConfigMapWatch (ECKLicenseConfigMapName exampleWatchNames)
                     (ECKOperatorNamespace exampleWatchNames)
               /\ errors_Unwrap
                    (Formatted
                       ("manager-controller failed to watch the ConfigMap resource: "
                        +++ "secrets is forbidden"))
                  = None)).
Proof.
  split; [reflexivity|].
  apply (add_error_wraps_the_refusal exampleConstants exampleWatchNames licenseMapRefused).
  reflexivity.
Defined.

(** The error of the last registration cannot be unwrapped; that of any
    other can. *)
Example only_the_last_error_is_not_wrapped :
  (exists g, snd (add exampleConstants exampleWatchNames licenseMapRefused) = inr g
             /\ errors_Unwrap g = None)
  /\ (exists g, snd (add exampleConstants exampleWatchNames allRefused) = inr g
                /\ errors_Unwrap g = Some (Opaque forbidden)
                /\ goerror_Error g
                   = "manager-controller failed to watch primary resource: secrets is forbidden").
Proof. split; eexists; repeat split; reflexivity. Qed.

Lemma Add_watches_only_after_creation_witness :
  fst (Add exampleConstants exampleWatchNames false allRefused exampleOptions)
  = creation false exampleOptions ++ Watch KindManager :: []
  /\ EnterpriseCRDExists exampleOptions = true
  /\ controller_New_err allRefused = None
  /\ NewForConfig_err allRefused = None
  /\ exists before, creation false exampleOptions
                    = creation false exampleOptions ++ map Watch before.
Proof.
  split; [reflexivity|].
  apply (Add_watches_only_after_creation exampleConstants exampleWatchNames false
           allRefused exampleOptions (creation false exampleOptions) [] KindManager).
  reflexivity.
Defined.

Lemma secrets_read_are_watched_witness :
  snd (add exampleConstants exampleWatchNames allGranted) = inl tt
  /\ In ("manager-tls", "tigera-operator")
        (secretsRead (trace (examplePass ready healthy)))
  /\ In (Watch (SecretsWatch "manager-tls" "tigera-operator"))
        (fst (add exampleConstants exampleWatchNames allGranted)).
Proof.
  split; [reflexivity|]. split; [left; reflexivity|].
  apply (secrets_read_are_watched "" exampleConstants exampleWatchNames exampleDNSNames
           exampleIssuedByOperator exampleFeatureActive exampleQuote
           ready healthy allGranted "manager-tls" "tigera-operator");
    [reflexivity | left; reflexivity].
Defined.

(** On the example cluster the pass reads seven secrets, all watched. *)
Example secrets_of_the_example_pass :
  secretsRead (trace (examplePass ready hub))
  = [("manager-tls", "tigera-operator");
     ("tigera-secure-kb-http-certs-public", "tigera-operator");
     ("tigera-management-cluster-connection", "tigera-operator");
     ("internal-manager-tls", "tigera-operator");
     ("tigera-packetcapture-server-tls", "tigera-operator");
     ("calico-node-prometheus-tls", "tigera-operator")]
  /\ length (watches (fst (add exampleConstants exampleWatchNames allGranted))) = 32.
Proof. split; reflexivity. Qed.

(** ** Copies *)

Definition exampleCore (name : string) : @Core string string string string :=
  mkCore "Core" name "spec" "status".

Definition exampleArrays : @Arrays string string string string :=
  [[exampleCore "a"; exampleCore "b"]].

Definition exampleItems : Slice := mkSlice 0 0 2.

Definition exampleList : @CoreList string string :=
  mkCoreList "CoreList" "42" (Some exampleItems).

(** Object metadata without references: its deep copy is itself. *)
Definition exampleCopyMeta (in_ out : string) : string := in_.

Definition exampleCopy : @CoreList string string * @Arrays string string string string :=
  CoreList_DeepCopyInto "" "" "" "" exampleCopyMeta exampleList
    (mkCoreList "" "" None) exampleArrays.

Lemma CoreList_DeepCopyInto_copies_into_a_new_array_witness :
  Items exampleList = Some exampleItems
  /\ base exampleItems < length exampleArrays
  /\ offset exampleItems + len exampleItems
     <= length (nth (base exampleItems) exampleArrays [])
  /\ exists dst,
       fst exampleCopy
       = mkCoreList (List_TypeMeta exampleList) (List_ListMeta exampleList) (Some dst)
       /\ dst = mkSlice (length exampleArrays) 0 (len exampleItems)
       /\ length (snd exampleCopy) = S (length exampleArrays)
       /\ (forall b, b < length exampleArrays ->
                     nth b (snd exampleCopy) [] = nth b exampleArrays [])
       /\ (forall i, i < len exampleItems ->
                     load "" "" "" "" (snd exampleCopy) dst i
                     = Core_DeepCopyInto exampleCopyMeta
                         (load "" "" "" "" exampleArrays exampleItems i)
                         (Core_zero "" "" "" ""))
       /\ (forall i j v,
             load "" "" "" "" (store (snd exampleCopy) dst i v) exampleItems j
             = load "" "" "" "" exampleArrays exampleItems j).
Proof.
  split; [reflexivity|]. split; [apply le_n|]. split; [apply le_n|].
  apply (CoreList_DeepCopyInto_copies_into_a_new_array "" "" "" "" exampleCopyMeta
           exampleList (mkCoreList "" "" None) exampleArrays exampleItems);
    [reflexivity | apply le_n | apply le_n].
Defined.

(** The copy and the original after a store through the copy. *)
Example store_through_the_copy :
  snd exampleCopy
  = [[exampleCore "a"; exampleCore "b"]; [exampleCore "a"; exampleCore "b"]]
  /\ store (snd exampleCopy) (mkSlice 1 0 2) 0 (exampleCore "c")
     = [[exampleCore "a"; exampleCore "b"]; [exampleCore "c"; exampleCore "b"]].
Proof. split; reflexivity. Qed.
